(** * pvc-webhook: the admission handler and the PVC reconcilers

    A shallow embedding of [internal/webhook/handler.go], [internal/webhook/patch.go]
    and of the reconcilers of package [controllers], with the properties of the
    specification that concern them.

    Go strings are byte sequences and are modelled by [string] (a list of
    8-bit characters).  Maps are [gmap]s; a nil map is [None]. *)

From Stdlib Require Import ZArith NArith Ascii Lia Sorted.
From stdpp Require Import base option list gmap strings pretty.

(** ** Package [strings] (the functions the handler calls) *)

Module strings.

Fixpoint HasPrefix (s prefix : string) {struct prefix} : bool :=
  match prefix, s with
  | EmptyString, _ => true
  | String p prefix', String c s' => if Ascii.eqb p c then HasPrefix s' prefix' else false
  | String _ _, EmptyString => false
  end.

Fixpoint drop (n : nat) (s : string) : string :=
  match n, s with
  | O, _ => s
  | S _, EmptyString => EmptyString
  | S n', String _ s' => drop n' s'
  end.

(** [s[:n]] for [n <= len(s)]; the callers guard the bound. *)
Fixpoint take (n : nat) (s : string) : string :=
  match n, s with
  | O, _ => EmptyString
  | S _, EmptyString => EmptyString
  | S n', String c s' => String c (take n' s')
  end.

Definition TrimPrefix (s prefix : string) : string :=
  if HasPrefix s prefix then drop (String.length prefix) s else s.

Fixpoint Contains (s substr : string) : bool :=
  HasPrefix s substr ||
  match s with
  | EmptyString => false
  | String _ s' => Contains s' substr
  end.

(** [ReplaceAll(s, old, new)] for a non-empty [old] (every call in the
    handler passes a literal of one or two bytes): the non-overlapping
    occurrences of [old] are replaced from left to right.  [skip] counts the
    bytes of a matched occurrence that are still to be dropped. *)
Fixpoint replace_from (skip : nat) (s old new : string) : string :=
  match s with
  | EmptyString => EmptyString
  | String c s' =>
      match skip with
      | S k => replace_from k s' old new
      | O =>
          if HasPrefix s old
          then new +:+ replace_from (String.length old - 1) s' old new
          else String c (replace_from 0 s' old new)
      end
  end.

Definition ReplaceAll (s old new : string) : string := replace_from 0 s old new.

Fixpoint IndexByte (cutset : string) (c : ascii) : bool :=
  match cutset with
  | EmptyString => false
  | String d cutset' => Ascii.eqb c d || IndexByte cutset' c
  end.

Fixpoint TrimLeft (s cutset : string) : string :=
  match s with
  | EmptyString => EmptyString
  | String c s' => if IndexByte cutset c then TrimLeft s' cutset else s
  end.

Fixpoint TrimRight (s cutset : string) : string :=
  match s with
  | EmptyString => EmptyString
  | String c s' =>
      match TrimRight s' cutset with
      | EmptyString => if IndexByte cutset c then EmptyString else String c EmptyString
      | r => String c r
      end
  end.

(** [Trim(s, cutset)] for a cutset of ASCII bytes. *)
Definition Trim (s cutset : string) : string := TrimRight (TrimLeft s cutset) cutset.

Definition byte_in (lo hi : N) (c : ascii) : bool :=
  ((lo <=? N_of_ascii c) && (N_of_ascii c <=? hi))%N.

Fixpoint map_bytes (f : ascii -> ascii) (s : string) : string :=
  match s with
  | EmptyString => EmptyString
  | String c s' => String (f c) (map_bytes f s')
  end.

Fixpoint all_bytes (p : ascii -> bool) (s : string) : bool :=
  match s with
  | EmptyString => true
  | String c s' => p c && all_bytes p s'
  end.

Definition lower_byte (c : ascii) : ascii :=
  if byte_in 65 90 c then ascii_of_N (N_of_ascii c + 32) else c.

(** [ToLower]: Go lower-cases an all-ASCII string byte by byte and hands any
    other string to [Map(unicode.ToLower, s)], which depends on the Unicode
    tables; that path is the argument [unicode_lower]. *)
Definition ToLower (unicode_lower : string -> string) (s : string) : string :=
  if all_bytes (byte_in 0 127) s then map_bytes lower_byte s else unicode_lower s.

End strings.

(** ** Package [unicode/utf8]: the width of the first rune of a string *)

Module utf8.

Import strings.

(** Size and accept range of the second byte, by first byte
    (the table [first] of [DecodeRuneInString]). *)
Definition first (c : ascii) : nat * N * N :=
  if byte_in 0xC2 0xDF c then (2%nat, 0x80, 0xBF)%N
  else if byte_in 0xE0 0xE0 c then (3%nat, 0xA0, 0xBF)%N
  else if byte_in 0xE1 0xEC c then (3%nat, 0x80, 0xBF)%N
  else if byte_in 0xED 0xED c then (3%nat, 0x80, 0x9F)%N
  else if byte_in 0xEE 0xEF c then (3%nat, 0x80, 0xBF)%N
  else if byte_in 0xF0 0xF0 c then (4%nat, 0x90, 0xBF)%N
  else if byte_in 0xF1 0xF3 c then (4%nat, 0x80, 0xBF)%N
  else if byte_in 0xF4 0xF4 c then (4%nat, 0x80, 0x8F)%N
  else (1%nat, 0, 0)%N.

Definition cont (c : ascii) : bool := byte_in 0x80 0xBF c.

(** Width of the rune [DecodeRuneInString] reads at the head of [s]; an
    invalid or truncated encoding is one byte wide (it reads as U+FFFD). *)
Definition width (s : string) : nat :=
  match s with
  | EmptyString => 0
  | String c0 rest =>
      let '(sz, lo, hi) := first c0 in
      match sz, rest with
      | 2, String c1 _ => if byte_in lo hi c1 then 2 else 1
      | 3, String c1 (String c2 _) => if byte_in lo hi c1 && cont c2 then 3 else 1
      | 4, String c1 (String c2 (String c3 _)) =>
          if byte_in lo hi c1 && cont c2 && cont c3 then 4 else 1
      | _, _ => 1
      end
  end.

End utf8.

(** ** Kubernetes API objects (the fields the code reads or writes) *)

Definition error := string.

Record EmptyDirVolumeSource := { Medium : string }.

Record PersistentVolumeClaimVolumeSource := { ClaimName : string }.

Record Volume := {
  vName : string;
  EmptyDir : option EmptyDirVolumeSource;
  PersistentVolumeClaim : option PersistentVolumeClaimVolumeSource
}.

(** [metav1.Time.IsZero]: a nil pointer or the zero instant; an instant is
    counted in seconds from the zero instant. *)
Definition Time := Z.

Definition IsZero (t : option Time) : bool :=
  match t with
  | None => true
  | Some x => (x =? 0)%Z
  end.

Record Pod := {
  Namespace : string;
  Name : string;
  UID : string;
  Annotations : option (gmap string string);
  DeletionTimestamp : option Time;
  Volumes : list Volume
}.

(** [m[k]] and [v, ok := m[k]] on a possibly nil [map[string]string]. *)
Definition index2 (m : option (gmap string string)) (k : string) : string * bool :=
  match m ≫= (.!! k) with
  | Some v => (v, true)
  | None => ("", false)
  end.

(** The annotation [k] of a pod, if the pod carries it. *)
Definition annotation (pod : Pod) (k : string) : option string :=
  Annotations pod ≫= (.!! k).

Definition index (m : option (gmap string string)) (k : string) : string :=
  fst (index2 m k).

(** ** Package [webhook] *)

Module webhook.

Import strings.

(** *** patch.go *)

(** The values the handler passes to [addOp] and [replaceOp] (their [v any]);
    [Value] keeps the value that [json.Marshal] is applied to. *)
Inductive any :=
| VolumeValue (v : Volume)
| MapValue (m : gmap string string)
| StringValue (s : string).

Record patchOp := { Op : string; Path : string; Value : any }.

Definition addOp (path : string) (v : any) : patchOp :=
  {| Op := "add"; Path := path; Value := v |}.

Definition replaceOp (path : string) (v : any) : patchOp :=
  {| Op := "replace"; Path := path; Value := v |}.

(** *** handler.go *)

Record AdmissionRequest := {
  rUID : string;
  Kind : string;          (* Request.Kind.Kind *)
  ObjectRaw : string      (* Request.Object.Raw *)
}.

Record Status := { Message : string; Code : Z }.

Record AdmissionResponse := {
  respUID : string;
  Allowed : bool;
  Patch : option string;
  PatchType : option string;
  Result : option Status
}.

Record AdmissionReview := {
  Request : option AdmissionRequest;
  Response : option AdmissionResponse
}.

Record Handler := {
  defaultSize : string;
  defaultSC : string;
  defaultAccess : string
}.

(** What a call of the handler leaves behind: the review written to the
    [ResponseWriter], or a run-time panic before anything is written. *)
Inductive outcome :=
| Written (contentType : string) (ar : AdmissionReview)
| Panicked (msg : string).

Definition nil_deref : string :=
  "runtime error: invalid memory address or nil pointer dereference".

Definition PatchTypeJSONPatch : string := "JSONPatch".
Definition StatusInternalServerError : Z := 500.

(** [nameRe = regexp.MustCompile(`[^a-z0-9\-]`)]: one rune outside the class.
    The class holds ASCII bytes only, so a rune matches exactly when its
    first byte is outside the class. *)
Definition nameRe_class (c : ascii) : bool :=
  byte_in 97 122 c || byte_in 48 57 c || Ascii.eqb c "-"%char.

Fixpoint nameRe_replace_from (skip : nat) (s repl : string) : string :=
  match s with
  | EmptyString => EmptyString
  | String c s' =>
      match skip with
      | S k => nameRe_replace_from k s' repl
      | O =>
          if nameRe_class c
          then String c (nameRe_replace_from 0 s' repl)
          else repl +:+ nameRe_replace_from (utf8.width s - 1) s' repl
      end
  end.

Definition nameRe_ReplaceAllString (s repl : string) : string :=
  nameRe_replace_from 0 s repl.

Definition maxName : nat := 63.

Definition convertedAnno : string := "pvc-webhook/converted".

(** The loop [for strings.Contains(s, "--") { s = strings.ReplaceAll(s, "--", "-") }].
    Every turn shortens [s], so [length s] turns are enough
    ([collapse_loop_exits] below). *)
Fixpoint collapse_loop (fuel : nat) (s : string) : string :=
  match fuel with
  | O => s
  | S fuel' =>
      if Contains s "--" then collapse_loop fuel' (ReplaceAll s "--" "-") else s
  end.

Definition pathEscape (p : string) : string :=
  let p := ReplaceAll p "~" "~0" in
  let p := ReplaceAll p "/" "~1" in
  "/" +:+ TrimPrefix p "/".

(** The response constructors read [in.Request.UID] through the pointer
    [in.Request]. *)
Definition allow (rin : AdmissionReview) : outcome + AdmissionReview :=
  match Request rin with
  | None => inl (Panicked nil_deref)
  | Some req =>
      inr {| Request := None;
             Response := Some {| respUID := rUID req; Allowed := true; Patch := None;
                                 PatchType := None; Result := None |} |}
  end.

Definition toErrorResponse (rin : AdmissionReview) (err : error)
  : outcome + AdmissionReview :=
  let st := {| Message := err; Code := StatusInternalServerError |} in
  match Request rin with
  | None => inl (Panicked nil_deref)
  | Some req =>
      inr {| Request := None;
             Response := Some {| respUID := rUID req; Allowed := false; Patch := None;
                                 PatchType := None; Result := Some st |} |}
  end.

(** [writeReview(w, f(review))]: the argument is evaluated first, so a panic
    in the constructor leaves nothing written. *)
Definition writeReview (ar : outcome + AdmissionReview) : outcome :=
  match ar with
  | inl p => p
  | inr ar => Written "application/json" ar
  end.

Section Handler.

(** The library calls whose results the handler branches on or passes
    along.  Each returns what Go leaves in the destination together with
    the error ([None] for nil). *)
Variable json_Decode : string -> AdmissionReview * option error.
Variable deser_Decode : string -> Pod * option error.
Variable json_Marshal : list patchOp -> string * option error.
Variable unicode_lower : string -> string.
Variable TrimSpace : string -> string.
(** The order in which [range addAnno] yields the entries of the map;
    Go leaves it unspecified. *)
Variable range_order : gmap string string -> list (string * string).

Fixpoint pick (vals : list string) : string :=
  match vals with
  | [] => ""
  | v :: vals' => if String.eqb (TrimSpace v) "" then pick vals' else v
  end.

Definition sanitize (s : string) : string :=
  let s := ToLower unicode_lower s in
  let s := ReplaceAll s "_" "-" in
  let s := nameRe_ReplaceAllString s "-" in
  let s := collapse_loop (String.length s) s in
  Trim s "-".

(** The local [claim] of the volume loop (lines 96-97). *)
Definition claimName (namespace name volume : string) : string :=
  let claim := sanitize ("pvc-" +:+ namespace +:+ "-" +:+ name +:+ "-" +:+ volume) in
  if (maxName <? String.length claim)%nat then take maxName claim else claim.

Definition volumePath (i : nat) : string := "/spec/volumes/" +:+ pretty i.

Record loop_state := {
  ops : list patchOp;
  addAnno : gmap string string;
  converted : bool
}.

(** The volume that replaces [v] (the local [newVol]). *)
Definition newVol (v : Volume) (claim : string) : Volume :=
  {| vName := vName v; EmptyDir := None;
     PersistentVolumeClaim := Some {| ClaimName := claim |} |}.

(** One turn of [for i, v := range pod.Spec.Volumes]. *)
Definition volume_step (h : Handler) (pod : Pod) (st : loop_state)
           (i : nat) (v : Volume) : loop_state :=
  match EmptyDir v with
  | None => st
  | Some _ =>
      let volKey := "pvc-webhook.vol/" +:+ vName v in
      let size := pick [index (Annotations pod) (volKey +:+ ".size"); defaultSize h] in
      let sc := pick [index (Annotations pod) (volKey +:+ ".storageClass"); defaultSC h] in
      let am := pick [index (Annotations pod) (volKey +:+ ".accessModes"); defaultAccess h] in
      let claim := claimName (Namespace pod) (Name pod) (vName v) in
      {| ops := ops st ++ [replaceOp (volumePath i) (VolumeValue (newVol v claim))];
         addAnno :=
           <[volKey +:+ ".claimName" := claim]>
             (<[volKey +:+ ".accessModes" := am]>
                (<[volKey +:+ ".storageClass" := sc]>
                   (<[volKey +:+ ".size" := size]> (addAnno st))));
         converted := true |}
  end.

Fixpoint volumes_loop (h : Handler) (pod : Pod) (i : nat) (vs : list Volume)
         (st : loop_state) : loop_state :=
  match vs with
  | [] => st
  | v :: vs' => volumes_loop h pod (S i) vs' (volume_step h pod st i v)
  end.

Definition annotationPath (k : string) : string :=
  pathEscape ("/metadata/annotations/" +:+ k).

(** The operations handed to [json.Marshal] (lines 122-129), from the
    state the volume loop leaves. *)
Definition patch_ops (pod : Pod) (st : loop_state) : list patchOp :=
  let ops := ops st in
  let ops :=
    match Annotations pod with
    | None => ops ++ [addOp "/metadata/annotations" (MapValue ∅)]
    | Some _ => ops
    end in
  let ops :=
    ops ++ map (fun kv => addOp (annotationPath (fst kv)) (StringValue (snd kv)))
               (range_order (addAnno st)) in
  ops ++ [addOp (annotationPath convertedAnno) (StringValue "true")].

Definition loop_init : loop_state :=
  {| ops := []; addAnno := ∅; converted := false |}.

(** The state in which the volume loop ends for [pod]. *)
Definition loop_end (h : Handler) (pod : Pod) : loop_state :=
  volumes_loop h pod 0 (Volumes pod) loop_init.

Definition ServeHTTP (h : Handler) (body : string) : outcome :=
  let '(review, err) := json_Decode body in
  match err with
  | Some err => writeReview (toErrorResponse review err)
  | None =>
  match Request review with
  | None => writeReview (allow review)
  | Some req =>
  if negb (String.eqb (Kind req) "Pod") then writeReview (allow review) else
  let '(pod, err) := deser_Decode (ObjectRaw req) in
  match err with
  | Some err => writeReview (toErrorResponse review ("decode pod: " +:+ err))
  | None =>
  if match Annotations pod with
     | None => false
     | Some _ => String.eqb (index (Annotations pod) convertedAnno) "true"
     end
  then writeReview (allow review) else
  let st := loop_end h pod in
  if negb (converted st) then writeReview (allow review) else
  let '(patchBytes, err) := json_Marshal (patch_ops pod st) in
  match err with
  | Some err => writeReview (toErrorResponse review ("marshal patch: " +:+ err))
  | None =>
      let resp :=
        {| respUID := rUID req; Allowed := true; Patch := Some patchBytes;
           PatchType := Some PatchTypeJSONPatch;
           Result := Some {| Message := "converted emptyDir to PVC"; Code := 0 |} |} in
      writeReview (inr {| Request := None; Response := Some resp |})
  end end end end.

End Handler.

(** [os.Getenv] on the process environment: the value of the variable, empty
    when it is not set. *)
Definition Getenv (env : gmap string string) (k : string) : string :=
  default "" (env !! k).

Definition getEnv (env : gmap string string) (k def : string) : string :=
  let v := Getenv env k in
  if negb (String.eqb v "") then v else def.

(** [NewHandler], in the environment it reads its defaults from. *)
Definition NewHandler (env : gmap string string) : Handler :=
  {| defaultSize := getEnv env "DEFAULT_SIZE" "10Gi";
     defaultSC := getEnv env "DEFAULT_STORAGE_CLASS" "standard";
     defaultAccess := getEnv env "DEFAULT_ACCESS_MODES" "ReadWriteOnce" |}.

End webhook.

(** ** Package [controllers] *)

Module controllers.

(** An error of the API client, by the reason [errors.IsNotFound] and
    [errors.IsAlreadyExists] look at. *)
Record apierror := { Reason : string; ErrMessage : string }.

Definition IsNotFound (e : apierror) : bool := String.eqb (Reason e) "NotFound".

(** [client.ObjectKey = types.NamespacedName]: namespace and name. *)
Definition NamespacedName := (string * string)%type.

Record OwnerReference := {
  APIVersion : string;
  orKind : string;
  orName : string;
  orUID : string;
  Controller : bool;
  BlockOwnerDeletion : bool
}.

(** [metav1.NewControllerRef(&pod, corev1.SchemeGroupVersion.WithKind("Pod"))]. *)
Definition NewControllerRef (pod : Pod) : OwnerReference :=
  {| APIVersion := "v1"; orKind := "Pod"; orName := Name pod; orUID := UID pod;
     Controller := true; BlockOwnerDeletion := true |}.

(** [ctrl.Result]; durations in nanoseconds. *)
Record Result := { Requeue : bool; RequeueAfter : Z }.

Definition Result0 : Result := {| Requeue := false; RequeueAfter := 0 |}.
Definition Second : Z := 1000000000.

Definition ClaimBound : string := "Bound".
Definition ClaimPending : string := "Pending".
Definition ReadWriteOnce : string := "ReadWriteOnce".
Definition ResourceStorage : string := "storage".

Section Reconcilers.

(** [resource.Quantity] and [resource.ParseQuantity] of apimachinery. *)
Context {Quantity : Type}.
Variable ParseQuantity : string -> apierror + Quantity.

Record PersistentVolumeClaim := {
  pvcName : string;
  pvcNamespace : string;
  Labels : option (gmap string string);
  OwnerReferences : list OwnerReference;
  AccessModes : list string;
  Requests : gmap string Quantity;
  StorageClassName : option string;
  Phase : string
}.

(** The requests a reconciler sends through its [client.Client], indexed
    by what comes back: the object read or the error. *)
Inductive request : Type -> Type :=
| GetPod (key : NamespacedName) : request (apierror + Pod)
| GetPVC (key : NamespacedName) : request (apierror + PersistentVolumeClaim)
| Create (pvc : PersistentVolumeClaim) : request (option apierror)
| Delete (pvc : PersistentVolumeClaim) : request (option apierror).

(** A reconcile pass: a tree of client requests, log lines (level and
    message; the key-value pairs are left out) and recorded events, ending
    in a returned value or a panic. *)
Inductive action (A : Type) : Type :=
| Return (a : A)
| Call {R : Type} (r : request R) (k : R -> action A)
| Log (level msg : string) (k : action A)
| Eventf (eventtype reason msg : string) (k : action A)
| Panic (msg : string).

Arguments Return {A} a.
Arguments Call {A R} r k.
Arguments Log {A} level msg k.
Arguments Eventf {A} eventtype reason msg k.
Arguments Panic {A} msg.

Fixpoint bind {A B : Type} (m : action A) (f : A -> action B) : action B :=
  match m with
  | Return a => f a
  | Call r k => Call r (fun x => bind (k x) f)
  | Log level msg k => Log level msg (bind k f)
  | Eventf t reason msg k => Eventf t reason msg (bind k f)
  | Panic msg => Panic msg
  end.

Definition call {R : Type} (r : request R) : action R := Call r Return.
Definition logInfo (msg : string) : action unit := Log "info" msg (Return tt).
Definition logError (msg : string) : action unit := Log "error" msg (Return tt).

Notation "x <- m ;; k" := (bind m (fun x => k))
  (at level 100, m at next level, right associativity).
Notation "m ;;; k" := (bind m (fun _ => k))
  (at level 100, right associativity).

Definition ret (res : Result) (err : option apierror)
  : action (Result * option apierror) := Return (res, err).

(** [resource.MustParse] panics on a string that does not parse. *)
Definition MustParse (s : string) : action Quantity :=
  match ParseQuantity s with
  | inr q => Return q
  | inl _ => Panic "cannot parse quantity"
  end.

(** *** [PVCReconciler] (the variant with the explicit delete, as in the
    file that declares the struct; the copy of [Reconcile] in the root
    [oneagent-controller.go] builds its claim without the owner reference
    and logs nothing when the claim exists) *)

Record PVCReconciler := { DefaultSize : string; DefaultClass : string }.

(** The claim the pass builds (the struct literal assigned to [pvc]). *)
Definition PVCReconciler_claim (pod : Pod) (claimName : string) (size : Quantity)
           (className : string) : PersistentVolumeClaim :=
  {| pvcName := claimName; pvcNamespace := Namespace pod; Labels := None;
     OwnerReferences := [NewControllerRef pod];
     AccessModes := [ReadWriteOnce];
     Requests := {[ ResourceStorage := size ]};
     StorageClassName := Some className;
     Phase := "" |}.

(** The locals [sizeStr] and [className]: the annotation, or the
    reconciler's default when the annotation is empty or absent. *)
Definition PVCReconciler_sizeStr (r : PVCReconciler) (pod : Pod) : string :=
  let sizeStr := index (Annotations pod) "pvc-webhook/storage-size" in
  if String.eqb sizeStr "" then DefaultSize r else sizeStr.

Definition PVCReconciler_className (r : PVCReconciler) (pod : Pod) : string :=
  let className := index (Annotations pod) "pvc-webhook/storage-class" in
  if String.eqb className "" then DefaultClass r else className.

Definition PVCReconciler_Reconcile (r : PVCReconciler) (req : NamespacedName)
  : action (Result * option apierror) :=
  res <- call (GetPod req) ;;
  match res with
  | inl err => if IsNotFound err then ret Result0 None else ret Result0 (Some err)
  | inr pod =>
  let '(claimName, ok) := index2 (Annotations pod) "pvc-webhook/claim" in
  if negb ok || String.eqb claimName "" then ret Result0 None else
  if negb (IsZero (DeletionTimestamp pod)) then
    res <- call (GetPVC (Namespace pod, claimName)) ;;
    match res with
    | inr pvc =>
        delErr <- call (Delete pvc) ;;
        match delErr with
        | Some delErr => logError "failed to delete PVC" ;;; ret Result0 (Some delErr)
        | None => logInfo "Deleted PVC for Pod" ;;; ret Result0 None
        end
    | inl _ => ret Result0 None
    end
  else
  let sizeStr := PVCReconciler_sizeStr r pod in
  match ParseQuantity sizeStr with
  | inl err => logError "invalid storage size" ;;; ret Result0 None
  | inr size =>
  let className := PVCReconciler_className r pod in
  res <- call (GetPVC (Namespace pod, claimName)) ;;
  match res with
  | inr _ => logInfo "PVC already exists for Pod" ;;; ret Result0 None
  | inl err =>
  if negb (IsNotFound err) then ret Result0 (Some err) else
  let pvc := PVCReconciler_claim pod claimName size className in
  err <- call (Create pvc) ;;
  match err with
  | Some err => ret Result0 (Some err)
  | None => logInfo "Created PVC for Pod" ;;; ret Result0 None
  end end end end.

(** *** The copy of [PVCReconciler.Reconcile] in the root
    [oneagent-controller.go]: the same pass, with a claim that carries no
    owner reference and without the log line when the claim exists *)

Definition PVCReconciler_claim_root (pod : Pod) (claimName : string) (size : Quantity)
           (className : string) : PersistentVolumeClaim :=
  {| pvcName := claimName; pvcNamespace := Namespace pod; Labels := None;
     OwnerReferences := [];
     AccessModes := [ReadWriteOnce];
     Requests := {[ ResourceStorage := size ]};
     StorageClassName := Some className;
     Phase := "" |}.

Definition PVCReconciler_Reconcile_root (r : PVCReconciler) (req : NamespacedName)
  : action (Result * option apierror) :=
  res <- call (GetPod req) ;;
  match res with
  | inl err => if IsNotFound err then ret Result0 None else ret Result0 (Some err)
  | inr pod =>
  let '(claimName, ok) := index2 (Annotations pod) "pvc-webhook/claim" in
  if negb ok || String.eqb claimName "" then ret Result0 None else
  if negb (IsZero (DeletionTimestamp pod)) then
    res <- call (GetPVC (Namespace pod, claimName)) ;;
    match res with
    | inr pvc =>
        delErr <- call (Delete pvc) ;;
        match delErr with
        | Some delErr => logError "failed to delete PVC" ;;; ret Result0 (Some delErr)
        | None => logInfo "Deleted PVC for Pod" ;;; ret Result0 None
        end
    | inl _ => ret Result0 None
    end
  else
  let sizeStr := PVCReconciler_sizeStr r pod in
  match ParseQuantity sizeStr with
  | inl err => logError "invalid storage size" ;;; ret Result0 None
  | inr size =>
  let className := PVCReconciler_className r pod in
  res <- call (GetPVC (Namespace pod, claimName)) ;;
  match res with
  | inr _ => ret Result0 None
  | inl err =>
  if negb (IsNotFound err) then ret Result0 (Some err) else
  let pvc := PVCReconciler_claim_root pod claimName size className in
  err <- call (Create pvc) ;;
  match err with
  | Some err => ret Result0 (Some err)
  | None => logInfo "Created PVC for Pod" ;;; ret Result0 None
  end end end end.

(** *** [PersistentVolumeClaimReconciler] (controllers/oneagent-controller.go,
    the variant [main] registers) *)

Record PersistentVolumeClaimReconciler := { Recorder : option string }.

(** The claim the pass builds, with [StorageClassName] set only for a
    non-empty class. *)
Definition PersistentVolumeClaimReconciler_claim (pod : Pod) (claimName : string)
           (qty : Quantity) (storageClass : string) : PersistentVolumeClaim :=
  {| pvcName := claimName; pvcNamespace := Namespace pod;
     Labels := Some {[ "created-by" := "pvc-webhook"; "pod" := Name pod ]};
     OwnerReferences := [NewControllerRef pod];
     AccessModes := [ReadWriteOnce];
     Requests := {[ ResourceStorage := qty ]};
     StorageClassName :=
       if String.eqb storageClass "" then None else Some storageClass;
     Phase := "" |}.

(** The locals [storageSize] and [storageClass]. *)
Definition storageSize (pod : Pod) : string :=
  let storageSize := index (Annotations pod) "pvc-webhook/storage-size" in
  if String.eqb storageSize "" then "2Gi" else storageSize.

Definition storageClass (pod : Pod) : string :=
  index (Annotations pod) "pvc-webhook/storage-class".

Definition PersistentVolumeClaimReconciler_Reconcile
           (r : PersistentVolumeClaimReconciler) (req : NamespacedName)
  : action (Result * option apierror) :=
  res <- call (GetPod req) ;;
  match res with
  | inl err => if IsNotFound err then ret Result0 None else ret Result0 (Some err)
  | inr pod =>
  let claimName := index (Annotations pod) "pvc-webhook/claim" in
  if String.eqb claimName "" then ret Result0 None else
  let storageSize := storageSize pod in
  let storageClass := storageClass pod in
  res <- call (GetPVC (Namespace pod, claimName)) ;;
  match res with
  | inr pvc =>
      if String.eqb (Phase pvc) ClaimBound then
        logInfo "PVC already bound" ;;; ret Result0 None
      else if String.eqb (Phase pvc) ClaimPending then
        logInfo "PVC exists but not yet bound" ;;;
        ret {| Requeue := false; RequeueAfter := 5 * Second |} None
      else
        logInfo "PVC in unexpected phase" ;;;
        ret {| Requeue := false; RequeueAfter := 10 * Second |} None
  | inl err =>
  if negb (IsNotFound err) then ret Result0 (Some err) else
  qty <- match ParseQuantity storageSize with
         | inr qty => Return qty
         | inl parseErr =>
             logError "Invalid storage-size annotation, defaulting to 2Gi" ;;;
             MustParse "2Gi"
         end ;;
  let pvc := PersistentVolumeClaimReconciler_claim pod claimName qty storageClass in
  err <- call (Create pvc) ;;
  match err with
  | Some err => ret Result0 (Some err)
  | None =>
      logInfo "Created PVC for Pod" ;;;
      match Recorder r with
      | Some _ =>
          Eventf "Normal" "PVCProvisioned"
                 ("Created PVC " +:+ claimName +:+ " for Pod " +:+ Name pod) (Return tt)
      | None => Return tt
      end ;;;
      ret {| Requeue := false; RequeueAfter := 5 * Second |} None
  end end end.

(** *** The earlier [PersistentVolumeClaimReconciler]
    (controllers/oneagent-controller-backup-1.go): it parses the size with
    [resource.MustParse] inside the struct literal of the claim *)

Definition Backup_Reconcile (req : NamespacedName) : action (Result * option apierror) :=
  res <- call (GetPod req) ;;
  match res with
  | inl err => if IsNotFound err then ret Result0 None else ret Result0 (Some err)
  | inr pod =>
  let claimName := index (Annotations pod) "pvc-webhook/claim" in
  if String.eqb claimName "" then ret Result0 None else
  let storageSize := storageSize pod in
  let storageClass := storageClass pod in
  res <- call (GetPVC (Namespace pod, claimName)) ;;
  match res with
  | inr _ => logInfo "PVC already exists" ;;; ret Result0 None
  | inl err =>
  if negb (IsNotFound err) then ret Result0 (Some err) else
  qty <- MustParse storageSize ;;
  let pvc := PersistentVolumeClaimReconciler_claim pod claimName qty storageClass in
  err <- call (Create pvc) ;;
  match err with
  | Some err => ret Result0 (Some err)
  | None => logInfo "Created PVC for Pod" ;;; ret Result0 None
  end end end.

(** *** [PodReconciler] (the file that declares it, with its built-in
    defaults) *)

Definition PodReconciler_claim (pod : Pod) (pvcName : string) (size : Quantity)
           (className : string) : PersistentVolumeClaim :=
  {| pvcName := pvcName; pvcNamespace := Namespace pod; Labels := None;
     OwnerReferences := [NewControllerRef pod];
     AccessModes := [ReadWriteOnce];
     Requests := {[ ResourceStorage := size ]};
     StorageClassName := if String.eqb className "" then None else Some className;
     Phase := "" |}.

(** The locals [sizeStr] and [className], with their built-in fallbacks. *)
Definition PodReconciler_sizeStr (pod : Pod) : string :=
  let sizeStr := index (Annotations pod) "pvc-webhook/storage-size" in
  if String.eqb sizeStr "" then "2Gi" else sizeStr.

Definition PodReconciler_className (pod : Pod) : string :=
  let className := index (Annotations pod) "pvc-webhook/storage-class" in
  if String.eqb className "" then "robin-repl-3" else className.

Definition PodReconciler_Reconcile (req : NamespacedName)
  : action (Result * option apierror) :=
  res <- call (GetPod req) ;;
  match res with
  | inl err => ret Result0 (if IsNotFound err then None else Some err)
  | inr pod =>
  let pvcName := index (Annotations pod) "pvc-webhook/claim" in
  if String.eqb pvcName "" then ret Result0 None else
  let sizeStr := index (Annotations pod) "pvc-webhook/storage-size" in
  let sizeStr := if String.eqb sizeStr "" then "2Gi" else sizeStr in
  match ParseQuantity sizeStr with
  | inl err => logError "invalid storage size" ;;; ret Result0 None
  | inr size =>
  let className := index (Annotations pod) "pvc-webhook/storage-class" in
  let className := if String.eqb className "" then "robin-repl-3" else className in
  res <- call (GetPVC (Namespace pod, pvcName)) ;;
  match res with
  | inr _ => ret Result0 None
  | inl err =>
  if negb (IsNotFound err) then ret Result0 (Some err) else
  let pvc := PodReconciler_claim pod pvcName size className in
  err <- call (Create pvc) ;;
  match err with
  | Some err => logError "failed to create PVC" ;;; ret Result0 (Some err)
  | None => logInfo "created PVC for Pod" ;;; ret Result0 None
  end end end end.

(** *** Running a pass against a client *)

(** What a pass did, in order: the requests sent, the lines logged, the
    events recorded. *)
Inductive sent :=
| SentGetPod (key : NamespacedName)
| SentGetPVC (key : NamespacedName)
| SentCreate (pvc : PersistentVolumeClaim)
| SentDelete (pvc : PersistentVolumeClaim)
| Logged (level msg : string)
| Recorded (eventtype reason msg : string).

Definition sent_of {R : Type} (r : request R) : sent :=
  match r with
  | GetPod key => SentGetPod key
  | GetPVC key => SentGetPVC key
  | Create pvc => SentCreate pvc
  | Delete pvc => SentDelete pvc
  end.

Definition creates (tr : list sent) : list PersistentVolumeClaim :=
  omap (fun e => match e with SentCreate pvc => Some pvc | _ => None end) tr.

Definition deletes (tr : list sent) : list PersistentVolumeClaim :=
  omap (fun e => match e with SentDelete pvc => Some pvc | _ => None end) tr.

(** The requests of a pass, without the log lines and the events. *)
Definition requests (tr : list sent) : list sent :=
  List.filter (fun e => match e with Logged _ _ | Recorded _ _ _ => false | _ => true end) tr.

Inductive finished (A : Type) :=
| Returned (a : A)
| Panicked (msg : string).

Arguments Returned {A} a.
Arguments Panicked {A} msg.

(** The interface [client.Client]: a world [W] that answers each request
    and moves on.  Nothing is assumed of the answers, so a world may fail
    a request or change between two requests of one pass. *)
Class Client (W : Type) := serve : forall R : Type, request R -> W -> R * W.

Fixpoint run {W : Type} `{!Client W} {A : Type} (m : action A) (w : W)
  : finished A * W * list sent :=
  match m with
  | Return a => (Returned a, w, [])
  | Call r k =>
      let '(x, w) := serve _ r w in
      let '(o, w, tr) := run (k x) w in
      (o, w, sent_of r :: tr)
  | Log level msg k =>
      let '(o, w, tr) := run k w in (o, w, Logged level msg :: tr)
  | Eventf t reason msg k =>
      let '(o, w, tr) := run k w in (o, w, Recorded t reason msg :: tr)
  | Panic msg => (Panicked msg, w, [])
  end.

(** A cluster store that answers as the API server does when nobody else
    writes. *)
Record cluster := {
  pods : gmap NamespacedName Pod;
  pvcs : gmap NamespacedName PersistentVolumeClaim
}.

Definition notFound : apierror := {| Reason := "NotFound"; ErrMessage := "not found" |}.
Definition alreadyExists : apierror :=
  {| Reason := "AlreadyExists"; ErrMessage := "already exists" |}.

Definition pvcKey (pvc : PersistentVolumeClaim) : NamespacedName :=
  (pvcNamespace pvc, pvcName pvc).

(** Every claim of the store sits under its own namespace and name. *)
Definition well_keyed (w : cluster) : Prop :=
  forall key pvc, pvcs w !! key = Some pvc -> pvcKey pvc = key.

Definition cluster_serve (R : Type) (r : request R) : cluster -> R * cluster :=
  match r in request R return cluster -> R * cluster with
  | GetPod key => fun w =>
      (match pods w !! key with Some pod => inr pod | None => inl notFound end, w)
  | GetPVC key => fun w =>
      (match pvcs w !! key with Some pvc => inr pvc | None => inl notFound end, w)
  | Create pvc => fun w =>
      match pvcs w !! pvcKey pvc with
      | Some _ => (Some alreadyExists, w)
      | None => (None, {| pods := pods w; pvcs := <[pvcKey pvc := pvc]> (pvcs w) |})
      end
  | Delete pvc => fun w =>
      match pvcs w !! pvcKey pvc with
      | Some _ => (None, {| pods := pods w; pvcs := delete (pvcKey pvc) (pvcs w) |})
      | None => (Some notFound, w)
      end
  end.

Global Instance cluster_client : Client cluster := cluster_serve.

(** A cluster with a rival writer: the rival's create of [rival] lands
    right after the next read of a claim. *)
Record raced := { base : cluster; rival : option PersistentVolumeClaim }.

Definition raced_serve (R : Type) (r : request R) (w : raced) : R * raced :=
  let '(x, c) := cluster_serve R r (base w) in
  match r, rival w with
  | GetPVC _, Some pvc =>
      (x, {| base := snd (cluster_serve _ (Create pvc) c); rival := None |})
  | _, _ => (x, {| base := c; rival := rival w |})
  end.

Global Instance raced_client : Client raced := raced_serve.

End Reconcilers.

Arguments Return {Quantity A} a.
Arguments Call {Quantity A R} r k.
Arguments Log {Quantity A} level msg k.
Arguments Eventf {Quantity A} eventtype reason msg k.
Arguments Panic {Quantity A} msg.
Arguments Returned {A} a.
Arguments Panicked {A} msg.

(** A stand-in for [resource.ParseQuantity] on the sizes the examples use:
    whole numbers of [Gi], as a count of bytes. *)
Definition badQuantity : apierror :=
  {| Reason := "BadRequest";
     ErrMessage := "quantities must match the regular expression" |}.

Definition demoParseQuantity (s : string) : apierror + N :=
  if String.eqb s "1Gi" then inr (1 * 2 ^ 30)%N
  else if String.eqb s "2Gi" then inr (2 * 2 ^ 30)%N
  else if String.eqb s "5Gi" then inr (5 * 2 ^ 30)%N
  else if String.eqb s "10Gi" then inr (10 * 2 ^ 30)%N
  else inl badQuantity.

End controllers.

(** [escapeJSONPointer] of the older handler in [main.go], which escapes one
    reference token and leaves the separators of the path alone. *)
Definition escapeJSONPointer (s : string) : string :=
  let s := strings.ReplaceAll s "~" "~0" in
  strings.ReplaceAll s "/" "~1".

(** ** The older handler of [main.go] ([mutatePods] and [writeResponse]) *)

Module legacy.

(** The values of the patch maps ([map[string]interface{}]). *)
Inductive patchValue :=
| ClaimVolume (name claimName : string)
| AnnotationMap (m : gmap string string)
| Text (s : string).

Record patch := { op : string; path : string; value : patchValue }.

Record AdmissionResponse := {
  respUID : string;
  Allowed : bool;
  PatchType : option string;
  Patch : option string
}.

Record AdmissionReview := {
  TypeMeta : string * string;
  Request : option webhook.AdmissionRequest;
  Response : option AdmissionResponse
}.

(** What [mutatePods] leaves behind: an [http.Error], a written review, or a
    panic. *)
Inductive outcome :=
| HTTPError (msg : string) (code : Z)
| Responded (ar : AdmissionReview)
| Panicked (msg : string).

Definition StatusBadRequest : Z := 400.

Definition writeResponse (ar : AdmissionReview) (patch : option string) : outcome :=
  match Request ar with
  | None => Panicked webhook.nil_deref
  | Some req =>
      Responded
        {| TypeMeta := TypeMeta ar; Request := None;
           Response := Some
             match patch with
             | Some bytes =>
                 {| respUID := webhook.rUID req; Allowed := true;
                    PatchType := Some webhook.PatchTypeJSONPatch; Patch := Some bytes |}
             | None =>
                 {| respUID := webhook.rUID req; Allowed := true;
                    PatchType := None; Patch := None |}
             end |}
  end.

Definition annPath : string := "/metadata/annotations".

(** [pod.Annotations == nil || len(pod.Annotations) == 0]. *)
Definition noAnnotations (a : option (gmap string string)) : bool :=
  match a with
  | None => true
  | Some m => bool_decide (m = ∅)
  end.

(** One turn of the volume loop, on the patches so far and on
    [pod.Annotations], which the loop overwrites. *)
Definition volume_step (podName : string)
           (st : list patch * option (gmap string string)) (i : nat) (vol : Volume)
  : list patch * option (gmap string string) :=
  match EmptyDir vol with
  | None => st
  | Some _ =>
      let pvcName := "pvc-" +:+ podName +:+ "-" +:+ vName vol in
      let patches :=
        st.1 ++ [{| op := "replace"; path := "/spec/volumes/" +:+ pretty i;
                    value := ClaimVolume (vName vol) pvcName |}] in
      if noAnnotations st.2
      then (patches ++ [{| op := "add"; path := annPath;
                           value := AnnotationMap
                                      {[ "pvc-webhook/" +:+ vName vol := pvcName ]} |}],
            Some ∅)
      else (patches ++ [{| op := "add";
                           path := annPath +:+ "/"
                                   +:+ escapeJSONPointer ("pvc-webhook/" +:+ vName vol);
                           value := Text pvcName |}],
            st.2)
  end.

Fixpoint volumes_loop (podName : string) (i : nat) (vs : list Volume)
         (st : list patch * option (gmap string string))
  : list patch * option (gmap string string) :=
  match vs with
  | [] => st
  | v :: vs' => volumes_loop podName (S i) vs' (volume_step podName st i v)
  end.

Definition patches (pod : Pod) : list patch :=
  (volumes_loop (Name pod) 0 (Volumes pod) ([], Annotations pod)).1.

Section Handler.

(** [ioutil.ReadAll(r.Body)] is the argument [body] ([inl] for a read
    error); the codecs are as for the newer handler, and [json.Marshal]
    returns nil bytes beside an error, which [mutatePods] drops. *)
Variable deserializer_Decode : string -> AdmissionReview * option error.
Variable json_Unmarshal : string -> Pod * option error.
Variable json_Marshal : list patch -> option string.

Definition mutatePods (body : error + string) : outcome :=
  match body with
  | inl _ => HTTPError "unable to read body" StatusBadRequest
  | inr body =>
  let '(admissionReview, err) := deserializer_Decode body in
  match err with
  | Some _ => HTTPError "unable to decode body" StatusBadRequest
  | None =>
  match Request admissionReview with
  | None => Panicked webhook.nil_deref
  | Some req =>
  if negb (String.eqb (webhook.Kind req) "Pod") then writeResponse admissionReview None else
  let '(pod, err) := json_Unmarshal (webhook.ObjectRaw req) in
  match err with
  | Some _ => HTTPError "could not unmarshal pod" StatusBadRequest
  | None => writeResponse admissionReview (json_Marshal (patches pod))
  end end end end.

End Handler.

End legacy.

(** ** The volumes the handler converts *)

(** The [emptyDir] volumes of a volume list with their indices, counted
    from [i]. *)
Fixpoint convertible (i : nat) (vs : list Volume) : list (nat * Volume) :=
  match vs with
  | [] => []
  | v :: vs' =>
      match EmptyDir v with
      | Some _ => (i, v) :: convertible (S i) vs'
      | None => convertible (S i) vs'
      end
  end.

(** ** Fixtures for the examples *)

Module fixtures.

Import webhook.

Definition emptyDirVolume (name : string) : Volume :=
  {| vName := name; EmptyDir := Some {| Medium := "" |}; PersistentVolumeClaim := None |}.

(** The pod of the first scenario of the specification. *)
Definition web0 : Pod :=
  {| Namespace := "ns1"; Name := "web-0"; UID := "uid-web-0"; Annotations := None;
     DeletionTimestamp := None; Volumes := [emptyDirVolume "data"] |}.

Definition web0_converted : Pod :=
  {| Namespace := "ns1"; Name := "web-0"; UID := "uid-web-0";
     Annotations := Some {[ convertedAnno := "true" ]};
     DeletionTimestamp := None; Volumes := [emptyDirVolume "data"] |}.

Definition zeroReview : AdmissionReview := {| Request := None; Response := None |}.

Definition podReview (uid raw : string) : AdmissionReview :=
  {| Request := Some {| rUID := uid; Kind := "Pod"; ObjectRaw := raw |};
     Response := None |}.

(** Stand-ins for the codecs, as tables over the bodies the examples send:
    [{}] decodes to the zero review, the named bodies to their reviews, and
    anything else is refused as malformed. *)
Definition json_Decode (body : string) : AdmissionReview * option error :=
  if String.eqb body "{}" then (zeroReview, None)
  else if String.eqb body "review of web-0" then (podReview "uid-1" "web-0", None)
  else if String.eqb body "review of converted web-0" then (podReview "uid-2" "web-0 converted", None)
  else if String.eqb body "review of a broken pod" then (podReview "uid-3" "broken", None)
  else (zeroReview, Some "invalid character 'o' in literal null (expecting 'u')").

Definition zeroPod : Pod :=
  {| Namespace := ""; Name := ""; UID := ""; Annotations := None;
     DeletionTimestamp := None; Volumes := [] |}.

Definition deser_Decode (raw : string) : Pod * option error :=
  if String.eqb raw "web-0" then (web0, None)
  else if String.eqb raw "web-0 converted" then (web0_converted, None)
  else (zeroPod, Some "couldn't get version/kind; json parse error").

Definition json_Marshal (ops : list patchOp) : string * option error :=
  (foldr (fun o acc => Op o +:+ " " +:+ Path o +:+ "; " +:+ acc) "" ops, None).

Definition asciiSpace : string :=
  String "009" (String "010" (String "011" (String "012" (String "013" " ")))).

Definition TrimSpace (s : string) : string := strings.Trim s asciiSpace.

Definition unicode_lower (s : string) : string := s.

Definition range_order (m : gmap string string) : list (string * string) :=
  map_to_list m.

Definition handler : Handler :=
  {| defaultSize := "10Gi"; defaultSC := "standard"; defaultAccess := "ReadWriteOnce" |}.

Definition ServeHTTP : Handler -> string -> outcome :=
  webhook.ServeHTTP json_Decode deser_Decode json_Marshal unicode_lower TrimSpace
                    range_order.

(** What the handler writes for the review of [web0]. *)
Definition web0_written : AdmissionReview :=
  Eval vm_compute in
    match ServeHTTP handler "review of web-0" with
    | Written _ ar => ar
    | Panicked _ => zeroReview
    end.

Definition web0_response : AdmissionResponse :=
  Eval vm_compute in
    match Response web0_written with
    | Some resp => resp
    | None => {| respUID := ""; Allowed := false; Patch := None; PatchType := None;
                 Result := None |}
    end.

Definition web0_patch : string :=
  Eval vm_compute in default "" (Patch web0_response).

(** A second pod [web-0] of [ns1]: it has annotations, and its [data]
    volume comes second, after a volume that is not an [emptyDir]. *)
Definition web0_again : Pod :=
  {| Namespace := "ns1"; Name := "web-0"; UID := "uid-web-0-again";
     Annotations := Some {[ "pvc-webhook.vol/data.size" := "1Gi" ]};
     DeletionTimestamp := None;
     Volumes := [ {| vName := "config"; EmptyDir := None; PersistentVolumeClaim := None |};
                  emptyDirVolume "data" ] |}.

Definition other_handler : Handler :=
  {| defaultSize := "2Gi"; defaultSC := "fast"; defaultAccess := "ReadWriteMany" |}.

(** A namespace of 58 letters. *)
Definition ns58 : string :=
  "aaaaaaaaaaaaaaaaaaaaaaaaaaaaaaaaaaaaaaaaaaaaaaaaaaaaaaaaaa".

End fixtures.

Module cluster_fixtures.

Import controllers.

Definition claimAnnotations (size : string) : gmap string string :=
  {[ "pvc-webhook/claim" := "pvc-x"; "pvc-webhook/storage-size" := size ]}.

(** A pod annotated with the claim [pvc-x] and the given size. *)
Definition claimedPod (size : string) : Pod :=
  {| Namespace := "ns1"; Name := "web-0"; UID := "uid-web-0";
     Annotations := Some (claimAnnotations size);
     DeletionTimestamp := None; Volumes := [] |}.

(** The same pod once its deletion has begun. *)
Definition deletingPod : Pod :=
  {| Namespace := "ns1"; Name := "web-0"; UID := "uid-web-0";
     Annotations := Some (claimAnnotations "5Gi");
     DeletionTimestamp := Some 63900000000%Z; Volumes := [] |}.

Definition web0Key : NamespacedName := ("ns1", "web-0").

Definition pvcx : PersistentVolumeClaim (Quantity := N) :=
  {| pvcName := "pvc-x"; pvcNamespace := "ns1"; Labels := None;
     OwnerReferences := [NewControllerRef deletingPod];
     AccessModes := [ReadWriteOnce];
     Requests := {[ ResourceStorage := (5 * 2 ^ 30)%N ]};
     StorageClassName := Some "standard";
     Phase := ClaimBound |}.

(** A cluster that holds [pod] and the given claims. *)
Definition clusterOf (pod : Pod) (claims : list PersistentVolumeClaim)
  : cluster (Quantity := N) :=
  {| pods := {[ web0Key := pod ]};
     pvcs := list_to_map (map (fun pvc => (pvcKey pvc, pvc)) claims) |}.

Definition reconciler : PVCReconciler :=
  {| DefaultSize := "10Gi"; DefaultClass := "standard" |}.

Definition registered : PersistentVolumeClaimReconciler := {| Recorder := None |}.



(** The same race around a pod whose size annotation [lots] does not
    parse. *)
Definition racedLots : raced (Quantity := N) :=
  {| base := clusterOf (claimedPod "lots") []; rival := Some pvcx |}.

Definition racedLotsAfterRead : raced (Quantity := N) :=
  {| base := clusterOf (claimedPod "lots") [pvcx]; rival := None |}.

End cluster_fixtures.

(** ** The name pattern of the specification *)

(** [^[a-z0-9]([a-z0-9-]*[a-z0-9])?$], the pattern section 8 of the
    specification asks of a claim name. *)
Definition alnum (c : ascii) : bool :=
  strings.byte_in 97 122 c || strings.byte_in 48 57 c.

Fixpoint ends_alnum (s : string) : bool :=
  match s with
  | EmptyString => false
  | String c EmptyString => alnum c
  | String _ s' => ends_alnum s'
  end.

Definition matchesNamePattern (s : string) : bool :=
  match s with
  | EmptyString => false
  | String c EmptyString => alnum c
  | String c rest =>
      alnum c && strings.all_bytes webhook.nameRe_class rest && ends_alnum rest
  end.

(** The first byte of a string, if any, is not a hyphen. *)
Definition no_leading_hyphen (s : string) : Prop :=
  strings.HasPrefix s "-" = false \/ s = "".

(** The annotation key under which the handler records a parameter of the
    volume [volume] ([volKey] followed by the suffix). *)
Definition volumeAnnotation (volume suffix : string) : string :=
  ("pvc-webhook.vol/" +:+ volume) +:+ suffix.

(** ** Further fixtures *)

Module more_fixtures.

Import webhook.

Definition serviceReview : AdmissionReview :=
  {| Request := Some {| rUID := "uid-9"; Kind := "Service"; ObjectRaw := "service" |};
     Response := None |}.

(** A pod with annotations and no [emptyDir] volume. *)
Definition plainPod : Pod :=
  {| Namespace := "ns1"; Name := "plain"; UID := "uid-plain"; Annotations := Some ∅;
     DeletionTimestamp := None;
     Volumes := [ {| vName := "config"; EmptyDir := None; PersistentVolumeClaim := None |} ] |}.

(** The stand-in codecs of [fixtures], with two more bodies. *)
Definition json_Decode (body : string) : AdmissionReview * option error :=
  if String.eqb body "review of a service" then (serviceReview, None)
  else if String.eqb body "review of a plain pod"
       then (fixtures.podReview "uid-8" "plain", None)
       else fixtures.json_Decode body.

Definition deser_Decode (raw : string) : Pod * option error :=
  if String.eqb raw "plain" then (plainPod, None) else fixtures.deser_Decode raw.

Definition failing_Marshal (ops : list patchOp) : string * option error :=
  ("", Some "json: error calling MarshalJSON").

Definition ServeHTTP : Handler -> string -> outcome :=
  webhook.ServeHTTP json_Decode deser_Decode fixtures.json_Marshal fixtures.unicode_lower
                    fixtures.TrimSpace fixtures.range_order.

Definition ServeHTTP_failing_Marshal : Handler -> string -> outcome :=
  webhook.ServeHTTP json_Decode deser_Decode failing_Marshal fixtures.unicode_lower
                    fixtures.TrimSpace fixtures.range_order.

End more_fixtures.

Module legacy_fixtures.

Import legacy.

Definition webReview : AdmissionReview :=
  {| TypeMeta := ("AdmissionReview", "admission.k8s.io/v1");
     Request := Some {| webhook.rUID := "uid-1"; webhook.Kind := "Pod";
                        webhook.ObjectRaw := "web-0" |};
     Response := None |}.

Definition zeroReview : AdmissionReview :=
  {| TypeMeta := ("", ""); Request := None; Response := None |}.

(** Stand-ins for the codecs, as tables over the bodies of the examples. *)
Definition deserializer_Decode (body : string) : AdmissionReview * option error :=
  if String.eqb body "review of web-0" then (webReview, None)
  else (zeroReview, Some "couldn't get version/kind; json parse error").

Definition json_Unmarshal (raw : string) : Pod * option error :=
  if String.eqb raw "web-0" then (fixtures.web0, None)
  else (fixtures.zeroPod, Some "unexpected end of JSON input").

Definition json_Marshal (ps : list patch) : option string :=
  Some (foldr (fun o acc => op o +:+ " " +:+ path o +:+ "; " +:+ acc) "" ps).

Definition mutatePods : error + string -> outcome :=
  legacy.mutatePods deserializer_Decode json_Unmarshal json_Marshal.

Definition web0_responded : AdmissionReview :=
  Eval vm_compute in
    match mutatePods (inr "review of web-0") with
    | Responded ar => ar
    | _ => zeroReview
    end.

End legacy_fixtures.

Module more_cluster_fixtures.

Import controllers cluster_fixtures.

Definition emptyCluster : cluster (Quantity := N) := {| pods := ∅; pvcs := ∅ |}.

(** A pod that carries no annotation at all. *)
Definition unclaimedPod : Pod :=
  {| Namespace := "ns1"; Name := "web-0"; UID := "uid-web-0"; Annotations := None;
     DeletionTimestamp := None; Volumes := [] |}.

(** The claim [pvc-x] while it waits for its volume. *)
Definition pvcxPending : PersistentVolumeClaim (Quantity := N) :=
  {| pvcName := "pvc-x"; pvcNamespace := "ns1"; Labels := None;
     OwnerReferences := [NewControllerRef (claimedPod "5Gi")];
     AccessModes := [ReadWriteOnce];
     Requests := {[ ResourceStorage := (5 * 2 ^ 30)%N ]};
     StorageClassName := Some "standard";
     Phase := ClaimPending |}.

End more_cluster_fixtures.

(** ** Reading the handler's patch back *)

(** The decoding of a reference token that RFC 6901 pairs with the escaping
    of [pathEscape]: [~1] back to [/], then [~0] back to [~]. *)
Definition unescapeToken (t : string) : string :=
  strings.ReplaceAll (strings.ReplaceAll t "~1" "/") "~0" "~".

(** The last two bytes of a string of two bytes or more. *)
Fixpoint last2 (s : string) : string :=
  match s with
  | EmptyString => EmptyString
  | String _ (String _ EmptyString) => s
  | String _ s' => last2 s'
  end.

(** What the two replacements of [pathEscape] make of one byte. *)
Definition escapeByte (c : ascii) : string :=
  if Ascii.eqb "~" c then "~0" else if Ascii.eqb "/" c then "~1" else String c "".

(** The suffixes of the four annotation keys the handler records for a
    volume. *)
Definition parameterSuffixes : list string :=
  [".size"; ".storageClass"; ".accessModes"; ".claimName"].

(** The value the volume loop records under [volumeAnnotation volume suffix]:
    the claim name, or the pick between the pod's own annotation of that key
    and the handler's default. *)
Definition recordedValue (unicode_lower TrimSpace : string -> string)
           (h : webhook.Handler) (pod : Pod) (volume suffix : string) : string :=
  if String.eqb suffix ".claimName"
  then webhook.claimName unicode_lower (Namespace pod) (Name pod) volume
  else webhook.pick TrimSpace
         [index (Annotations pod) (volumeAnnotation volume suffix);
          if String.eqb suffix ".size" then webhook.defaultSize h
          else if String.eqb suffix ".storageClass" then webhook.defaultSC h
          else webhook.defaultAccess h].

(** The map [m] holds exactly the four keys of every [emptyDir] volume of
    [seen], each with its value. *)
Definition records (unicode_lower TrimSpace : string -> string) (h : webhook.Handler)
           (pod : Pod) (seen : list Volume) (m : gmap string string) : Prop :=
  forall k x,
    m !! k = Some x
    <-> exists v suffix,
          v ∈ seen /\ is_Some (EmptyDir v) /\ suffix ∈ parameterSuffixes
          /\ k = volumeAnnotation (vName v) suffix
          /\ x = recordedValue unicode_lower TrimSpace h pod (vName v) suffix.

(** * Properties *)

Example pathEscape_ex :
  webhook.pathEscape "/metadata/annotations/pvc-webhook/converted"
  = "/~1metadata~1annotations~1pvc-webhook~1converted".
Proof. vm_compute. reflexivity. Qed.

Example sanitize_ex :
  webhook.sanitize (fun s => s) "pvc-My_NS--web.0-__data-" = "pvc-my-ns-web-0-data".
Proof. vm_compute. reflexivity. Qed.


(** ** Strings *)

Section StringFacts.

Import strings.

Lemma string_app_cons (c : ascii) (s t : string) : String c s +:+ t = String c (s +:+ t).
Proof. reflexivity. Qed.

Lemma string_app_assoc (s t u : string) : (s +:+ t) +:+ u = s +:+ (t +:+ u).
Proof. induction s as [|c s IH]; [reflexivity|]. rewrite !string_app_cons. by f_equal. Qed.

Lemma string_length_app (s t : string) :
  String.length (s +:+ t) = String.length s + String.length t.
Proof. induction s as [|c s IH]; [reflexivity|]. rewrite string_app_cons. simpl. by f_equal. Qed.

(** Replacing a one-byte [old] goes through a concatenation. *)
Lemma ReplaceAll_byte_app (c : ascii) (new s t : string) :
  ReplaceAll (s +:+ t) (String c "") new
  = ReplaceAll s (String c "") new +:+ ReplaceAll t (String c "") new.
Proof.
  unfold ReplaceAll. induction s as [|d s IH]; [reflexivity|].
  rewrite string_app_cons. cbn [replace_from HasPrefix String.length Nat.sub].
  destruct (Ascii.eqb c d); cbv iota; rewrite IH.
  - by rewrite string_app_assoc.
  - by rewrite string_app_cons.
Qed.

Lemma length_take (n : nat) (s : string) : String.length (take n s) = n `min` String.length s.
Proof. revert s; induction n as [|n IH]; intros [|c s]; simpl; auto. Qed.

(** One turn of the collapsing loop never lengthens the string, and shortens
    it when a double hyphen is present. *)
Lemma collapse_turn_length (s : string) :
  String.length (replace_from 0 s "--" "-") <= String.length s
  /\ String.length (replace_from 1 s "--" "-") <= pred (String.length s)
  /\ (Contains s "--" = true ->
      String.length (replace_from 0 s "--" "-") < String.length s).
Proof.
  induction s as [|c s (IH0 & IH1 & IHc)]; [simpl; repeat split; [lia..|discriminate]|].
  cbn [replace_from Contains]. cbn [String.length Nat.sub pred].
  destruct (HasPrefix (String c s) "--") eqn:Hp.
  - rewrite string_length_app. cbn [String.length].
    assert (0 < String.length s).
    { destruct s; [|simpl; lia]. cbn [HasPrefix] in Hp.
      destruct (Ascii.eqb _ c); discriminate. }
    repeat split; lia.
  - cbn [String.length orb]. repeat split; try lia. intros Hc. apply IHc in Hc. lia.
Qed.

(** The collapsing loop leaves through its condition: with [length s] turns
    and more, the result holds no double hyphen. *)
Lemma collapse_loop_exits (fuel : nat) (s : string) :
  String.length s <= fuel ->
  Contains (webhook.collapse_loop fuel s) "--" = false.
Proof.
  revert s. induction fuel as [|fuel IH]; intros s Hlen.
  - destruct s; [reflexivity | simpl in Hlen; lia].
  - cbn [webhook.collapse_loop]. destruct (Contains s "--") eqn:Hc; [|exact Hc].
    apply IH. pose proof (collapse_turn_length s) as (_ & _ & Hlt).
    specialize (Hlt Hc). unfold ReplaceAll. lia.
Qed.

(** More turns than needed change nothing. *)
Lemma collapse_loop_enough (fuel fuel' : nat) (s : string) :
  String.length s <= fuel -> fuel <= fuel' ->
  webhook.collapse_loop fuel' s = webhook.collapse_loop fuel s.
Proof.
  revert fuel' s. induction fuel as [|fuel IH]; intros fuel' s Hlen Hle.
  - destruct s; [|simpl in Hlen; lia]. by destruct fuel'.
  - destruct fuel' as [|fuel']; [lia|]. cbn [webhook.collapse_loop].
    destruct (Contains s "--") eqn:Hc; [|reflexivity].
    apply IH; [|lia]. pose proof (collapse_turn_length s) as (_ & _ & Hlt).
    specialize (Hlt Hc). unfold ReplaceAll. lia.
Qed.

(** Two concatenations with right parts of one length agree part by part. *)
Lemma list_ascii_of_string_app (s t : string) :
  String.list_ascii_of_string (s +:+ t)
  = String.list_ascii_of_string s ++ String.list_ascii_of_string t.
Proof. induction s as [|c s IH]; [reflexivity|]. rewrite string_app_cons. simpl. by f_equal. Qed.

Lemma string_app_inj_2 (s1 s2 t1 t2 : string) :
  String.length t1 = String.length t2 ->
  s1 +:+ t1 = s2 +:+ t2 -> s1 = s2 /\ t1 = t2.
Proof.
  intros Hlen Heq. apply (f_equal String.list_ascii_of_string) in Heq.
  rewrite !list_ascii_of_string_app in Heq.
  apply app_inj_2 in Heq as [H1 H2].
  - split.
    + by rewrite <- (String.string_of_list_ascii_of_string s1), H1,
        String.string_of_list_ascii_of_string.
    + by rewrite <- (String.string_of_list_ascii_of_string t1), H2,
        String.string_of_list_ascii_of_string.
  - clear Heq. revert t2 Hlen. induction t1 as [|c t1 IH]; intros [|d t2] Hlen;
      simpl in *; try lia. f_equal. apply IH. lia.
Qed.

(** A one-byte [old] is gone after [ReplaceAll] when [new] does not hold it. *)
Lemma escaped_slash_free (s : string) :
  Contains (ReplaceAll s "/" "~1") "/" = false.
Proof.
  unfold ReplaceAll. induction s as [|c s IH]; [reflexivity|].
  cbn [replace_from HasPrefix String.length Nat.sub].
  destruct (Ascii.eqb "/" c) eqn:Hc; cbv iota.
  - exact IH.
  - cbn [Contains HasPrefix]. rewrite Hc. exact IH.
Qed.

End StringFacts.

(** ** The patch paths of the annotations *)

(** What [pathEscape] makes of an annotation path: the separators of the
    prefix are escaped along with those of the key, and a fresh leading slash
    is put in front. *)
Lemma annotationPath_eq (k : string) :
  webhook.annotationPath k = "/~1metadata~1annotations~1" +:+ escapeJSONPointer k.
Proof.
  unfold webhook.annotationPath, webhook.pathEscape, escapeJSONPointer.
  rewrite (ReplaceAll_byte_app "~" "~0" "/metadata/annotations/" k).
  rewrite (ReplaceAll_byte_app "/" "~1").
  reflexivity.
Qed.

(** The emitted path is a single reference token: past its leading slash it
    holds no separator at all. *)
Lemma annotationPath_single_token (k : string) :
  exists token : string,
    webhook.annotationPath k = "/" +:+ token /\ strings.Contains token "/" = false.
Proof.
  exists ("~1metadata~1annotations~1" +:+ escapeJSONPointer k).
  split; [apply annotationPath_eq|]. unfold escapeJSONPointer.
  change "~1metadata~1annotations~1" with (strings.ReplaceAll "/metadata/annotations/" "/" "~1").
  rewrite <- (ReplaceAll_byte_app "/" "~1"). apply escaped_slash_free.
Qed.

(** C1 (the code departs from the claim).  For every annotation key [k] the
    path the handler emits is [/~1metadata~1annotations~1] followed by the
    escaped key: the separators of the prefix are escaped too, so the path is
    never the unescaped prefix [/metadata/annotations/] followed by the
    escaped key. *)
Theorem annotation_path_escapes_prefix (k : string) :
  webhook.annotationPath k = "/~1metadata~1annotations~1" +:+ escapeJSONPointer k
  /\ webhook.annotationPath k <> "/metadata/annotations/" +:+ escapeJSONPointer k
  /\ webhook.annotationPath webhook.convertedAnno
     = "/~1metadata~1annotations~1pvc-webhook~1converted".
Proof.
  split; [apply annotationPath_eq|]. split; [|by vm_compute].
  rewrite annotationPath_eq. discriminate.
Qed.

(** ** Claim names *)

Import fixtures (ns58).

(** C3 (the code departs from the claim).  In namespace [ns58] (58 letters),
    pod [p], volume [v]: the sanitized name has 66 bytes, the cut at 63 falls
    right after the hyphen that follows the namespace, and the claim name
    keeps that trailing hyphen, so it does not match the name pattern. *)
Theorem claimName_keeps_cut_hyphen (unicode_lower : string -> string) :
  webhook.sanitize unicode_lower ("pvc-" +:+ ns58 +:+ "-p-v") = "pvc-" +:+ ns58 +:+ "-p-v"
  /\ webhook.claimName unicode_lower ns58 "p" "v" = "pvc-" +:+ ns58 +:+ "-"
  /\ String.length (webhook.claimName unicode_lower ns58 "p" "v") = 63
  /\ matchesNamePattern (webhook.claimName unicode_lower ns58 "p" "v") = false.
Proof. by vm_compute. Qed.

(** What does hold of every claim name: its length, its bytes and its first
    byte; and a name that the cut leaves alone is empty or matches the
    pattern. *)

Section ClaimNameFacts.

Import strings webhook.

Variable unicode_lower : string -> string.

Lemma all_bytes_app (p : ascii -> bool) (s t : string) :
  all_bytes p (s +:+ t) = all_bytes p s && all_bytes p t.
Proof.
  induction s as [|c s IH]; [reflexivity|].
  rewrite string_app_cons. simpl. rewrite IH. by rewrite andb_assoc.
Qed.

Lemma nameRe_replace_class (skip : nat) (s : string) :
  all_bytes nameRe_class (nameRe_replace_from skip s "-") = true.
Proof.
  revert skip. induction s as [|c s IH]; intros skip; [reflexivity|].
  cbn [nameRe_replace_from]. destruct skip as [|k]; [|apply IH].
  destruct (nameRe_class c) eqn:Hc.
  - simpl. rewrite Hc. apply IH.
  - rewrite all_bytes_app, IH. reflexivity.
Qed.

Lemma collapse_turn_class (skip : nat) (s : string) :
  all_bytes nameRe_class s = true ->
  all_bytes nameRe_class (replace_from skip s "--" "-") = true.
Proof.
  revert skip. induction s as [|c s IH]; intros skip Hs; [reflexivity|].
  simpl in Hs. apply andb_true_iff in Hs as [Hc Hs].
  cbn [replace_from]. destruct skip as [|k]; [|by apply IH].
  destruct (HasPrefix (String c s) "--").
  - rewrite all_bytes_app, IH by done. reflexivity.
  - simpl. rewrite Hc. by apply IH.
Qed.

Lemma collapse_loop_class (fuel : nat) (s : string) :
  all_bytes nameRe_class s = true ->
  all_bytes nameRe_class (collapse_loop fuel s) = true.
Proof.
  revert s. induction fuel as [|fuel IH]; intros s Hs; [exact Hs|].
  cbn [collapse_loop]. destruct (Contains s "--"); [|exact Hs].
  apply IH. by apply collapse_turn_class.
Qed.

Lemma TrimLeft_all (p : ascii -> bool) (s cutset : string) :
  all_bytes p s = true -> all_bytes p (TrimLeft s cutset) = true.
Proof.
  induction s as [|c s IH]; intros Hs; [reflexivity|].
  cbn [TrimLeft]. destruct (IndexByte cutset c); [|exact Hs].
  simpl in Hs. apply andb_true_iff in Hs as [_ Hs]. by apply IH.
Qed.

Lemma TrimRight_all (p : ascii -> bool) (s cutset : string) :
  all_bytes p s = true -> all_bytes p (TrimRight s cutset) = true.
Proof.
  induction s as [|c s IH]; intros Hs; [reflexivity|].
  simpl in Hs. apply andb_true_iff in Hs as [Hc Hs]. specialize (IH Hs).
  cbn [TrimRight]. destruct (TrimRight s cutset) as [|d r].
  - destruct (IndexByte cutset c); [reflexivity|]. simpl. by rewrite Hc.
  - change (p c && all_bytes p (String d r) = true). by rewrite Hc, IH.
Qed.

Lemma take_all (p : ascii -> bool) (n : nat) (s : string) :
  all_bytes p s = true -> all_bytes p (take n s) = true.
Proof.
  revert s. induction n as [|n IH]; intros [|c s] Hs; try reflexivity.
  simpl in *. apply andb_true_iff in Hs as [Hc Hs]. by rewrite Hc, IH.
Qed.

Lemma sanitize_class (s : string) :
  all_bytes nameRe_class (sanitize unicode_lower s) = true.
Proof.
  unfold sanitize, Trim. apply TrimRight_all, TrimLeft_all, collapse_loop_class.
  apply nameRe_replace_class.
Qed.

Lemma TrimLeft_head (s : string) : no_leading_hyphen (TrimLeft s "-").
Proof.
  induction s as [|c s IH]; [by right|].
  cbn [TrimLeft IndexByte]. rewrite orb_false_r.
  destruct (Ascii.eqb c "-") eqn:Hc; [exact IH|]. left.
  cbn [HasPrefix]. by rewrite Ascii.eqb_sym, Hc.
Qed.

Lemma TrimRight_head (s cutset : string) :
  no_leading_hyphen s -> no_leading_hyphen (TrimRight s cutset).
Proof.
  intros [Hs| ->]; [|by right]. destruct s as [|c s]; [by right|].
  cbn [TrimRight]. destruct (TrimRight s cutset) as [|d r].
  - destruct (IndexByte cutset c); [by right | by left].
  - by left.
Qed.

Lemma take_head (n : nat) (s : string) :
  no_leading_hyphen s -> no_leading_hyphen (take n s).
Proof.
  intros [Hs| ->]; [|right; by destruct n].
  destruct n as [|n]; [by right|]. destruct s as [|c s]; [by right|]. by left.
Qed.

Lemma TrimRight_ends (s : string) :
  all_bytes nameRe_class s = true ->
  TrimRight s "-" = "" \/ ends_alnum (TrimRight s "-") = true.
Proof.
  induction s as [|c s IH]; intros Hs; [by left|].
  simpl in Hs. apply andb_true_iff in Hs as [Hc Hs]. specialize (IH Hs).
  cbn [TrimRight IndexByte]. rewrite orb_false_r.
  destruct (TrimRight s "-") as [|d r].
  - destruct (Ascii.eqb c "-") eqn:Hh; [by left|]. right.
    unfold nameRe_class in Hc. rewrite Hh, orb_false_r in Hc. exact Hc.
  - right. destruct IH as [IH|IH]; [discriminate|]. exact IH.
Qed.

(** The sanitizer alone yields the empty string or a name of the pattern. *)
Lemma sanitize_valid_or_empty (s : string) :
  sanitize unicode_lower s = "" \/ matchesNamePattern (sanitize unicode_lower s) = true.
Proof.
  pose proof (sanitize_class s) as Hclass. unfold sanitize, Trim in *.
  set (t := TrimLeft _ "-") in *.
  assert (all_bytes nameRe_class t = true) as Ht.
  { apply TrimLeft_all, collapse_loop_class, nameRe_replace_class. }
  pose proof (TrimRight_head t "-" (TrimLeft_head _)) as Hhead.
  destruct (TrimRight_ends t Ht) as [He|He]; [by left|]. right.
  destruct (TrimRight t "-") as [|c rest]; [discriminate|].
  destruct Hhead as [Hhead|?]; [|discriminate].
  cbn [HasPrefix] in Hhead. simpl in Hclass. apply andb_true_iff in Hclass as [Hc Hrest].
  assert (alnum c = true) as Hal.
  { unfold nameRe_class in Hc. destruct (Ascii.eqb "-" c) eqn:Hh; [discriminate|].
    rewrite Ascii.eqb_sym, Hh, orb_false_r in Hc. exact Hc. }
  unfold matchesNamePattern. destruct rest as [|d rest]; [exact Hal|].
  rewrite Hal, Hrest. exact He.
Qed.

(** Every claim name has at most 63 bytes, all of them in [[a-z0-9-]], and
    does not begin with a hyphen. *)
Lemma claimName_bounds (namespace name volume : string) :
  let claim := claimName unicode_lower namespace name volume in
  String.length claim <= 63
  /\ all_bytes nameRe_class claim = true
  /\ no_leading_hyphen claim.
Proof.
  unfold claimName. set (s := sanitize unicode_lower _).
  assert (no_leading_hyphen s) as Hhead.
  { unfold s, sanitize, Trim. apply TrimRight_head, TrimLeft_head. }
  pose proof (sanitize_class ("pvc-" +:+ namespace +:+ "-" +:+ name +:+ "-" +:+ volume))
    as Hclass. fold s in Hclass.
  cbv zeta. destruct (Nat.ltb_spec maxName (String.length s)) as [Hlt|Hle].
  - rewrite length_take. split_and!; [unfold maxName; lia | by apply take_all |
      by apply take_head].
  - unfold maxName in Hle. split_and!; auto.
Qed.

(** A claim name that the cut at 63 leaves alone is empty or matches the
    pattern. *)
Lemma claimName_valid_when_short (namespace name volume : string) :
  let s := sanitize unicode_lower
             ("pvc-" +:+ namespace +:+ "-" +:+ name +:+ "-" +:+ volume) in
  String.length s <= 63 ->
  claimName unicode_lower namespace name volume = s
  /\ (s = "" \/ matchesNamePattern s = true).
Proof.
  intros s Hle. split; [|apply sanitize_valid_or_empty].
  unfold claimName. fold s. cbv zeta.
  destruct (Nat.ltb_spec maxName (String.length s)) as [Hlt|_]; [|reflexivity].
  unfold maxName in Hlt. lia.
Qed.

End ClaimNameFacts.

(** ** The admission handler *)

Section HandlerFacts.

Import webhook.

Variable json_Decode : string -> AdmissionReview * option error.
Variable deser_Decode : string -> Pod * option error.
Variable json_Marshal : list patchOp -> string * option error.
Variable unicode_lower : string -> string.
Variable TrimSpace : string -> string.
Variable range_order : gmap string string -> list (string * string).

Local Abbreviation ServeHTTP :=
  (webhook.ServeHTTP json_Decode deser_Decode json_Marshal unicode_lower TrimSpace
                     range_order).
Local Abbreviation loop_end := (webhook.loop_end unicode_lower TrimSpace).
Local Abbreviation volumes_loop := (webhook.volumes_loop unicode_lower TrimSpace).
Local Abbreviation claimName := (webhook.claimName unicode_lower).

(** The replace operation of the volume [v] found at index [i] of [pod]. *)
Local Abbreviation replace_of pod :=
  (fun iv : nat * Volume =>
     replaceOp (volumePath iv.1)
       (VolumeValue (newVol iv.2 (claimName (Namespace pod) (Name pod) (vName iv.2))))).

Lemma convertible_bound (i : nat) (vs : list Volume) :
  Forall (fun iv : nat * Volume => i <= iv.1) (convertible i vs).
Proof.
  revert i. induction vs as [|v vs IH]; intros i; simpl; [constructor|].
  assert (Forall (fun iv : nat * Volume => i <= iv.1) (convertible (S i) vs)) as Hrest.
  { eapply Forall_impl; [apply IH|]. simpl. lia. }
  destruct (EmptyDir v); [constructor; simpl; [lia|]|]; exact Hrest.
Qed.

(** The convertible volumes come in increasing index order. *)
Lemma convertible_sorted (i : nat) (vs : list Volume) :
  StronglySorted lt (convertible i vs).*1.
Proof.
  revert i. induction vs as [|v vs IH]; intros i; simpl; [constructor|].
  destruct (EmptyDir v); [|apply IH].
  simpl. constructor; [apply IH|].
  apply Forall_fmap. eapply Forall_impl; [apply (convertible_bound (S i))|].
  simpl. lia.
Qed.

(** They are exactly the [emptyDir] volumes of the list. *)
Lemma convertible_spec (i j : nat) (v : Volume) (vs : list Volume) :
  (j, v) ∈ convertible i vs <-> i <= j /\ vs !! (j - i) = Some v /\ is_Some (EmptyDir v).
Proof.
  revert i. induction vs as [|w vs IH]; intros i; simpl.
  { split; [by intros ?%elem_of_nil | by intros (_ & ? & _)]. }
  assert ((j, v) ∈ convertible (S i) vs <->
          i <= j /\ (w :: vs) !! (j - i) = Some v /\ is_Some (EmptyDir v) /\ j <> i) as Hrest.
  { rewrite IH. split.
    - intros (Hle & Hl & He). replace (j - i) with (S (j - S i)) by lia.
      repeat split; auto; lia.
    - intros (Hle & Hl & He & Hne). replace (j - i) with (S (j - S i)) in Hl by lia.
      repeat split; auto; lia. }
  destruct (EmptyDir w) eqn:Hw.
  - rewrite elem_of_cons, Hrest. split.
    + intros [[= -> ->]|(? & ? & ? & ?)]; [|done].
      rewrite Nat.sub_diag. simpl. rewrite Hw. eauto.
    + intros (Hle & Hl & He). destruct (decide (j = i)) as [->|Hne]; [|by right].
      left. rewrite Nat.sub_diag in Hl. simpl in Hl. by simplify_eq.
  - rewrite Hrest. split; [by intros (? & ? & ? & ?)|].
    intros (Hle & Hl & He). repeat split; auto. intros ->.
    rewrite Nat.sub_diag in Hl. simpl in Hl. simplify_eq. rewrite Hw in He.
    by destruct He.
Qed.

(** The volume loop appends one replace per convertible volume, in order. *)
Lemma volumes_loop_ops (h : Handler) (pod : Pod) (i : nat) (vs : list Volume)
      (st : loop_state) :
  ops (volumes_loop h pod i vs st) = ops st ++ map (replace_of pod) (convertible i vs).
Proof.
  revert i st. induction vs as [|v vs IH]; intros i st; simpl.
  { by rewrite app_nil_r. }
  rewrite IH. unfold volume_step. destruct (EmptyDir v); [|reflexivity].
  simpl. by rewrite <- List.app_assoc.
Qed.

Lemma loop_end_ops (h : Handler) (pod : Pod) :
  ops (loop_end h pod) = map (replace_of pod) (convertible 0 (Volumes pod)).
Proof. unfold webhook.loop_end. by rewrite volumes_loop_ops. Qed.

(** The responses of [allow] and [toErrorResponse] carry no patch. *)
Lemma no_patch_without_ops (f : outcome + AdmissionReview) (ct : string)
      (ar : AdmissionReview) (resp : AdmissionResponse) (review : AdmissionReview) :
  (f = allow review \/ exists err, f = toErrorResponse review err) ->
  writeReview f = Written ct ar -> Response ar = Some resp -> Patch resp = None.
Proof.
  intros [->|[err ->]]; unfold allow, toErrorResponse, writeReview;
    destruct (Request review); intros; simplify_eq/=; reflexivity.
Qed.

(** C10.  A body that decodes without error into a review whose [Request]
    is nil makes the handler panic on the nil pointer: nothing is written. *)
Theorem ServeHTTP_nil_request_panics (h : Handler) (body : string)
        (review : AdmissionReview) :
  json_Decode body = (review, None) ->
  Request review = None ->
  allow review = inl (Panicked nil_deref)
  /\ ServeHTTP h body = Panicked nil_deref.
Proof.
  intros Hdec Hreq. unfold webhook.ServeHTTP, allow. rewrite Hdec, Hreq. done.
Qed.

(** C2 (the code departs from the claim).  A body that fails to decode and
    leaves [Request] nil, as every body that is not well-formed JSON does,
    makes [toErrorResponse] read the UID through the nil pointer: the
    handler panics and writes no response. *)
Theorem ServeHTTP_undecodable_body_panics (h : Handler) (body : string)
        (review : AdmissionReview) (err : error) :
  json_Decode body = (review, Some err) ->
  Request review = None ->
  ServeHTTP h body = Panicked nil_deref.
Proof.
  intros Hdec Hreq. unfold webhook.ServeHTTP, toErrorResponse. rewrite Hdec, Hreq. done.
Qed.

(** The other half of C2 holds: when the pod embedded in a review of kind
    [Pod] fails to decode, the handler writes a denial with the message. *)
Lemma ServeHTTP_undecodable_pod_denied (h : Handler) (body : string)
      (review : AdmissionReview) (req : AdmissionRequest) (pod : Pod) (err : error) :
  json_Decode body = (review, None) ->
  Request review = Some req ->
  Kind req = "Pod" ->
  deser_Decode (ObjectRaw req) = (pod, Some err) ->
  ServeHTTP h body
  = Written "application/json"
      {| Request := None;
         Response := Some {| respUID := rUID req; Allowed := false; Patch := None;
                             PatchType := None;
                             Result := Some {| Message := "decode pod: " +:+ err;
                                               Code := 500 |} |} |}.
Proof.
  intros Hdec Hreq Hkind Hpod. unfold webhook.ServeHTTP, toErrorResponse.
  rewrite Hdec, Hreq, Hkind, Hpod. reflexivity.
Qed.

(** C7.  A pod whose annotations carry the converted marker with the value
    [true] is allowed without a patch, whatever else the pod and the handler
    hold. *)
Theorem ServeHTTP_converted_allowed (h : Handler) (body : string)
        (review : AdmissionReview) (req : AdmissionRequest) (pod : Pod)
        (annotations : gmap string string) :
  json_Decode body = (review, None) ->
  Request review = Some req ->
  deser_Decode (ObjectRaw req) = (pod, None) ->
  Annotations pod = Some annotations ->
  annotations !! convertedAnno = Some "true" ->
  ServeHTTP h body
  = Written "application/json"
      {| Request := None;
         Response := Some {| respUID := rUID req; Allowed := true; Patch := None;
                             PatchType := None; Result := None |} |}.
Proof.
  intros Hdec Hreq Hpod Hann Hmark. unfold webhook.ServeHTTP, allow.
  rewrite Hdec, Hreq. destruct (negb _); [reflexivity|].
  rewrite Hpod, Hann. unfold index, index2. simpl. rewrite Hmark. reflexivity.
Qed.

(** C8.  Every patch the handler writes is the marshalling of: the replace
    operations of the [emptyDir] volumes, by increasing index; then, if the
    pod had no annotation map, one add of an empty map at
    [/metadata/annotations]; then the adds of the recorded annotation keys;
    then, last, the add of the converted marker. *)
Theorem patch_operations_in_order (h : Handler) (body ct : string)
        (ar : AdmissionReview) (resp : AdmissionResponse) (bytes : string) :
  ServeHTTP h body = Written ct ar ->
  Response ar = Some resp ->
  Patch resp = Some bytes ->
  exists (review : AdmissionReview) (req : AdmissionRequest) (pod : Pod),
    json_Decode body = (review, None)
    /\ Request review = Some req
    /\ deser_Decode (ObjectRaw req) = (pod, None)
    /\ json_Marshal
         (map (replace_of pod) (convertible 0 (Volumes pod))
          ++ match Annotations pod with
             | None => [addOp "/metadata/annotations" (MapValue ∅)]
             | Some _ => []
             end
          ++ map (fun kv => addOp (annotationPath kv.1) (StringValue kv.2))
                 (range_order (addAnno (loop_end h pod)))
          ++ [addOp (annotationPath convertedAnno) (StringValue "true")])
       = (bytes, None)
    /\ StronglySorted lt (convertible 0 (Volumes pod)).*1
    /\ (forall i v, (i, v) ∈ convertible 0 (Volumes pod)
                    <-> Volumes pod !! i = Some v /\ is_Some (EmptyDir v)).
Proof.
  intros Hserve Hresp Hpatch. unfold webhook.ServeHTTP in Hserve.
  assert (forall f review,
             (f = allow review \/ exists err, f = toErrorResponse review err) ->
             writeReview f = Written ct ar -> False) as Hno.
  { intros f review Hf Hw.
    pose proof (no_patch_without_ops f ct ar resp review Hf Hw Hresp). congruence. }
  destruct (json_Decode body) as [review [err|]] eqn:Hdec.
  { exfalso. eapply Hno; [|exact Hserve]. eauto. }
  destruct (Request review) as [req|] eqn:Hreq; cycle 1.
  { exfalso. eapply Hno; [|exact Hserve]. eauto. }
  destruct (negb (String.eqb (Kind req) "Pod")).
  { exfalso. eapply Hno; [|exact Hserve]. eauto. }
  destruct (deser_Decode (ObjectRaw req)) as [pod [err|]] eqn:Hpod.
  { exfalso. eapply Hno; [|exact Hserve]. eauto. }
  destruct (match Annotations pod with None => false | Some _ => _ end).
  { exfalso. eapply Hno; [|exact Hserve]. eauto. }
  destruct (negb (converted _)).
  { exfalso. eapply Hno; [|exact Hserve]. eauto. }
  destruct (json_Marshal _) as [patchBytes [err|]] eqn:Hmarshal.
  { exfalso. eapply Hno; [|exact Hserve]. eauto. }
  unfold writeReview in Hserve. simplify_eq/=.
  exists review, req, pod. split_and!; auto.
  - rewrite <- Hmarshal. f_equal. unfold patch_ops. rewrite loop_end_ops.
    destruct (Annotations pod); simpl; by rewrite <- ?List.app_assoc.
  - apply convertible_sorted.
  - intros i v. rewrite convertible_spec, Nat.sub_0_r. split; [tauto|].
    intros (? & ?). split; [lia|]. tauto.
Qed.

(** The keys of two volumes meet only in the same suffix of the same name. *)
Lemma claimName_key_other (volume volume' suffix : string) :
  suffix = ".size" \/ suffix = ".storageClass" \/ suffix = ".accessModes" ->
  volumeAnnotation volume' suffix <> volumeAnnotation volume ".claimName".
Proof.
  unfold volumeAnnotation. intros Hsuf Heq.
  destruct Hsuf as [->|[->| ->]].
  - change ".claimName" with (".clai" +:+ "mName") in Heq.
    rewrite <- string_app_assoc in Heq.
    by apply string_app_inj_2 in Heq as [_ [=]].
  - change ".storageClass" with (".sto" +:+ "rageClass") in Heq.
    change ".claimName" with ("." +:+ "claimName") in Heq.
    rewrite <- !string_app_assoc in Heq.
    by apply string_app_inj_2 in Heq as [_ [=]].
  - change ".accessModes" with (".ac" +:+ "cessModes") in Heq.
    change ".claimName" with ("." +:+ "claimName") in Heq.
    rewrite <- !string_app_assoc in Heq.
    by apply string_app_inj_2 in Heq as [_ [=]].
Qed.

Lemma claimName_key_same (volume volume' : string) :
  volumeAnnotation volume' ".claimName" = volumeAnnotation volume ".claimName" ->
  volume' = volume.
Proof.
  unfold volumeAnnotation. intros Heq.
  apply string_app_inj_2 in Heq as [Heq _]; [|reflexivity].
  by apply (inj (String.app "pvc-webhook.vol/")) in Heq.
Qed.

(** A turn of the loop leaves a recorded claim name as it is: it writes the
    key again only for a volume of the same name, and then the same value. *)
Lemma volume_step_keeps_claim (h : Handler) (pod : Pod) (st : loop_state) (i : nat)
      (v : Volume) (volume : string) :
  addAnno st !! volumeAnnotation volume ".claimName"
  = Some (claimName (Namespace pod) (Name pod) volume) ->
  addAnno (volume_step unicode_lower TrimSpace h pod st i v)
    !! volumeAnnotation volume ".claimName"
  = Some (claimName (Namespace pod) (Name pod) volume).
Proof.
  intros Hst. unfold volume_step. destruct (EmptyDir v); [|exact Hst].
  cbn [addAnno].
  change ("pvc-webhook.vol/" +:+ vName v +:+ ?suf) with (volumeAnnotation (vName v) suf).
  destruct (decide (vName v = volume)) as [->|Hne].
  - apply lookup_insert_eq.
  - rewrite lookup_insert_ne by (intros ?%claimName_key_same; done).
    rewrite !lookup_insert_ne by (apply claimName_key_other; auto).
    exact Hst.
Qed.

Lemma volumes_loop_keeps_claim (h : Handler) (pod : Pod) (i : nat) (vs : list Volume)
      (st : loop_state) (volume : string) :
  addAnno st !! volumeAnnotation volume ".claimName"
  = Some (claimName (Namespace pod) (Name pod) volume) ->
  addAnno (volumes_loop h pod i vs st) !! volumeAnnotation volume ".claimName"
  = Some (claimName (Namespace pod) (Name pod) volume).
Proof.
  revert i st. induction vs as [|v vs IH]; intros i st Hst; [exact Hst|].
  simpl. apply IH. by apply volume_step_keeps_claim.
Qed.

(** The claim name recorded for the controller is the one of the volume. *)
Lemma loop_end_claim_annotation (h : Handler) (pod : Pod) (v : Volume) :
  v ∈ Volumes pod -> is_Some (EmptyDir v) ->
  addAnno (loop_end h pod) !! volumeAnnotation (vName v) ".claimName"
  = Some (claimName (Namespace pod) (Name pod) (vName v)).
Proof.
  unfold webhook.loop_end. generalize 0 loop_init.
  induction (Volumes pod) as [|w vs IH]; intros i st Hin He.
  { by apply elem_of_nil in Hin. }
  simpl. apply elem_of_cons in Hin as [->|Hin]; [|by apply IH].
  apply volumes_loop_keeps_claim. unfold volume_step.
  destruct He as [e ->]. cbn [addAnno]. apply lookup_insert_eq.
Qed.

(** C9.  The claim name the volume loop derives for an [emptyDir] volume is
    [claimName] of the pod's namespace, the pod's name and the volume's
    name, and of nothing else: two passes over pods with the same namespace
    and name, for volumes of the same name, put the same claim name into
    their replace operations and into the [claimName] annotation they
    record, whatever the handlers' defaults, the pods' annotations, their
    other volumes and the volumes' positions. *)
Theorem claim_name_determined (h1 h2 : Handler) (pod1 pod2 : Pod) (i1 i2 : nat)
        (v1 v2 : Volume) :
  Namespace pod1 = Namespace pod2 ->
  Name pod1 = Name pod2 ->
  vName v1 = vName v2 ->
  Volumes pod1 !! i1 = Some v1 -> is_Some (EmptyDir v1) ->
  Volumes pod2 !! i2 = Some v2 -> is_Some (EmptyDir v2) ->
  let claim := claimName (Namespace pod1) (Name pod1) (vName v1) in
  replaceOp (volumePath i1) (VolumeValue (newVol v1 claim)) ∈ ops (loop_end h1 pod1)
  /\ replaceOp (volumePath i2) (VolumeValue (newVol v2 claim)) ∈ ops (loop_end h2 pod2)
  /\ addAnno (loop_end h1 pod1) !! volumeAnnotation (vName v1) ".claimName" = Some claim
  /\ addAnno (loop_end h2 pod2) !! volumeAnnotation (vName v1) ".claimName" = Some claim.
Proof.
  intros Hns Hname Hvol Hl1 He1 Hl2 He2 claim. subst claim.
  rewrite !loop_end_ops. split_and!.
  - apply (list_elem_of_fmap_2 (replace_of pod1) _ (i1, v1)).
    apply convertible_spec. rewrite Nat.sub_0_r. repeat split; auto. lia.
  - rewrite Hns, Hname, Hvol.
    apply (list_elem_of_fmap_2 (replace_of pod2) _ (i2, v2)).
    apply convertible_spec. rewrite Nat.sub_0_r. repeat split; auto. lia.
  - apply loop_end_claim_annotation; [|done]. by eapply list_elem_of_lookup_2.
  - rewrite Hns, Hname, Hvol.
    apply loop_end_claim_annotation; [|done]. by eapply list_elem_of_lookup_2.
Qed.

End HandlerFacts.

(** *** The handler on the example requests *)

Section HandlerExamples.

Import webhook fixtures.

Example web0_claim_name : claimName unicode_lower "ns1" "web-0" "data" = "pvc-ns1-web-0-data".
Proof. by vm_compute. Qed.

Lemma ServeHTTP_nil_request_panics_witness :
  fixtures.ServeHTTP handler "{}" = Panicked nil_deref.
Proof.
  apply (ServeHTTP_nil_request_panics json_Decode deser_Decode json_Marshal
           unicode_lower TrimSpace range_order handler "{}" zeroReview);
    reflexivity.
Defined.

Lemma ServeHTTP_undecodable_body_panics_witness :
  fixtures.ServeHTTP handler "not json" = Panicked nil_deref.
Proof.
  apply (ServeHTTP_undecodable_body_panics json_Decode deser_Decode json_Marshal
           unicode_lower TrimSpace range_order handler "not json" zeroReview
           "invalid character 'o' in literal null (expecting 'u')");
    reflexivity.
Defined.

Lemma ServeHTTP_converted_allowed_witness :
  fixtures.ServeHTTP handler "review of converted web-0"
  = Written "application/json"
      {| Request := None;
         Response := Some {| respUID := "uid-2"; Allowed := true; Patch := None;
                             PatchType := None; Result := None |} |}.
Proof.
  apply (ServeHTTP_converted_allowed json_Decode deser_Decode json_Marshal
           unicode_lower TrimSpace range_order handler "review of converted web-0"
           (podReview "uid-2" "web-0 converted")
           {| rUID := "uid-2"; Kind := "Pod"; ObjectRaw := "web-0 converted" |}
           web0_converted {[ convertedAnno := "true" ]});
    reflexivity.
Defined.

Lemma patch_operations_in_order_witness :
  exists pod : Pod,
    deser_Decode "web-0" = (pod, None)
    /\ StronglySorted lt (convertible 0 (Volumes pod)).*1.
Proof.
  destruct (patch_operations_in_order json_Decode deser_Decode json_Marshal
              unicode_lower TrimSpace range_order handler "review of web-0"
              "application/json" web0_written web0_response web0_patch)
    as (review & req & pod & Hdec & Hreq & Hpod & _ & Hsorted & _);
    [by vm_compute | reflexivity | reflexivity |].
  exists pod. split; [|exact Hsorted].
  vm_compute in Hdec. simplify_eq/=. exact Hpod.
Defined.

Lemma claim_name_determined_witness :
  replaceOp (volumePath 0)
    (VolumeValue (newVol (emptyDirVolume "data") "pvc-ns1-web-0-data"))
    ∈ ops (loop_end unicode_lower TrimSpace handler web0)
  /\ replaceOp (volumePath 1)
       (VolumeValue (newVol (emptyDirVolume "data") "pvc-ns1-web-0-data"))
       ∈ ops (loop_end unicode_lower TrimSpace other_handler web0_again)
  /\ addAnno (loop_end unicode_lower TrimSpace handler web0)
       !! "pvc-webhook.vol/data.claimName" = Some "pvc-ns1-web-0-data"
  /\ addAnno (loop_end unicode_lower TrimSpace other_handler web0_again)
       !! "pvc-webhook.vol/data.claimName" = Some "pvc-ns1-web-0-data".
Proof.
  apply (claim_name_determined unicode_lower TrimSpace handler other_handler
           web0 web0_again 0 1 (emptyDirVolume "data") (emptyDirVolume "data"));
    try reflexivity; by eexists.
Defined.

End HandlerExamples.

(** ** The reconcilers *)

Section ReconcilerFacts.

Import controllers.

Context {Quantity : Type}.
Variable ParseQuantity : string -> apierror + Quantity.
Context {W : Type} `{!Client (Quantity := Quantity) W}.

Local Abbreviation PVCReconcile := (PVCReconciler_Reconcile ParseQuantity).
Local Abbreviation RegisteredReconcile :=
  (PersistentVolumeClaimReconciler_Reconcile ParseQuantity).

Lemma index2_annotation (pod : Pod) (k v : string) :
  annotation pod k = Some v -> index2 (Annotations pod) k = (v, true).
Proof. unfold annotation, index2. by intros ->. Qed.

Lemma index_annotation (pod : Pod) (k v : string) :
  annotation pod k = Some v -> index (Annotations pod) k = v.
Proof. intros H. unfold index. by rewrite (index2_annotation _ _ _ H). Qed.

Lemma eqb_empty_false (s : string) : s <> "" -> String.eqb s "" = false.
Proof. apply String.eqb_neq. Qed.

Ltac pass := cbn [run bind call logInfo logError ret sent_of negb orb].

(** [H : x ∈ l] for a literal list [l] that does not hold [x]. *)
Ltac absent H :=
  repeat (apply elem_of_cons in H as [H|H]; [discriminate H|]);
  by apply elem_of_nil in H.



(** [PVCReconciler] on a size that does not parse: one error line, nothing
    sent after the read of the pod. *)
Lemma PVCReconcile_bad_size (r : PVCReconciler) (req : NamespacedName) (w w1 : W)
      (pod : Pod) (claim : string) (perr : apierror) :
  serve _ (GetPod req) w = (inr pod, w1) ->
  annotation pod "pvc-webhook/claim" = Some claim ->
  claim <> "" ->
  IsZero (DeletionTimestamp pod) = true ->
  ParseQuantity (PVCReconciler_sizeStr r pod) = inl perr ->
  run (PVCReconcile r req) w
  = (Returned (Result0, None), w1,
     [SentGetPod req; Logged "error" "invalid storage size"]).
Proof.
  intros Hpod Hann Hne Hdel Hparse.
  unfold PVCReconciler_Reconcile. pass. rewrite Hpod. pass.
  rewrite (index2_annotation _ _ _ Hann), (eqb_empty_false _ Hne), Hdel.
  cbn [negb orb]. cbv zeta. rewrite Hparse. reflexivity.
Qed.

(** The registered reconciler up to its create, for a pod with a claim
    annotation whose claim is not found. *)
Lemma RegisteredReconcile_create (r : PersistentVolumeClaimReconciler)
      (req : NamespacedName) (w w1 w2 w3 : W) (pod : Pod) (claim : string)
      (e : apierror) (qty : Quantity) (cerr : option apierror) :
  serve _ (GetPod req) w = (inr pod, w1) ->
  annotation pod "pvc-webhook/claim" = Some claim ->
  claim <> "" ->
  serve _ (GetPVC (Namespace pod, claim)) w1 = (inl e, w2) ->
  IsNotFound e = true ->
  (ParseQuantity (storageSize pod) = inr qty
   \/ (exists perr, ParseQuantity (storageSize pod) = inl perr)
      /\ ParseQuantity "2Gi" = inr qty) ->
  serve _ (Create (PersistentVolumeClaimReconciler_claim pod claim qty (storageClass pod)))
        w2 = (cerr, w3) ->
  exists (res : Result) (tr : list sent),
    run (RegisteredReconcile r req) w = (Returned (res, cerr), w3, tr)
    /\ (is_Some cerr -> res = Result0)
    /\ creates tr
       = [PersistentVolumeClaimReconciler_claim pod claim qty (storageClass pod)]
    /\ deletes tr = []
    /\ (Logged "error" "Invalid storage-size annotation, defaulting to 2Gi" ∈ tr
        <-> exists perr, ParseQuantity (storageSize pod) = inl perr).
Proof.
  intros Hpod Hann Hne Hget Hnf Hparse Hcreate.
  unfold PersistentVolumeClaimReconciler_Reconcile. pass. rewrite Hpod. pass.
  rewrite (index_annotation _ _ _ Hann), (eqb_empty_false _ Hne).
  pass. rewrite Hget. pass. rewrite Hnf. cbn [negb]. cbv zeta.
  destruct Hparse as [Hq|[[perr Hq] H2]]; rewrite Hq.
  - pass. rewrite Hcreate. destruct cerr as [cerr|]; [|destruct (Recorder r)];
      pass; eexists _, _; (split; [reflexivity|]);
      (split_and!;
       [first [by intros _ | by intros [? [=]]] | reflexivity | reflexivity |]);
      (split; [intros Hin; absent Hin | by intros [? [=]]]).
  - unfold MustParse. rewrite H2. pass. rewrite Hcreate.
    destruct cerr as [cerr|]; [|destruct (Recorder r)];
      pass; eexists _, _; (split; [reflexivity|]);
      (split_and!;
       [first [by intros _ | by intros [? [=]]] | reflexivity | reflexivity |]);
      (split; [by eauto | intros _; do 2 right; by left]).
Qed.


(** The registered reconciler has no deletion branch: whatever the pod and
    the answers of the client, its pass sends no delete. *)
Lemma RegisteredReconcile_never_deletes (r : PersistentVolumeClaimReconciler)
      (req : NamespacedName) (w : W) :
  deletes (run (RegisteredReconcile r req) w).2 = [].
Proof.
  unfold PersistentVolumeClaimReconciler_Reconcile, MustParse. pass.
  destruct (serve _ (GetPod req) w) as [[e|pod] w1]; pass.
  { by destruct (IsNotFound e). }
  destruct (String.eqb _ ""); [reflexivity|]. pass.
  destruct (serve _ (GetPVC _) w1) as [[e|pvc] w2]; pass; cycle 1.
  { destruct (String.eqb (Phase pvc) ClaimBound); [reflexivity|].
    by destruct (String.eqb (Phase pvc) ClaimPending). }
  destruct (IsNotFound e); [|reflexivity]. pass.
  destruct (ParseQuantity (storageSize pod)) as [perr|qty]; pass.
  - destruct (ParseQuantity "2Gi") as [?|qty]; pass; [reflexivity|].
    destruct (serve _ (Create _) w2) as [[cerr|] w3]; pass; [reflexivity|].
    by destruct (Recorder r).
  - destruct (serve _ (Create _) w2) as [[cerr|] w3]; pass; [reflexivity|].
    by destruct (Recorder r).
Qed.

(** C4 (amended).  For a pod with a claim annotation and a size that does
    not parse, the two reconcilers differ.  [PVCReconciler], on a pod that
    is not being deleted, logs the error and ends the pass after the read of
    the pod: no request for the claim is sent, none is created, and the
    pass returns no error and no requeue; its size is the annotation, or
    [DefaultSize] when the annotation is empty.  The registered
    [PersistentVolumeClaimReconciler], when the claim is not found, logs the
    error and creates the claim with the size [2Gi]. *)
Theorem unparseable_size_by_reconciler (r : PVCReconciler)
        (r' : PersistentVolumeClaimReconciler) (req : NamespacedName) (w w1 : W)
        (pod : Pod) (claim : string) (perr : apierror) :
  serve _ (GetPod req) w = (inr pod, w1) ->
  annotation pod "pvc-webhook/claim" = Some claim ->
  claim <> "" ->
  (IsZero (DeletionTimestamp pod) = true ->
   ParseQuantity (PVCReconciler_sizeStr r pod) = inl perr ->
   run (PVCReconcile r req) w
   = (Returned (Result0, None), w1,
      [SentGetPod req; Logged "error" "invalid storage size"]))
  /\ (forall (e : apierror) (w2 w3 : W) (twoGi : Quantity) (cerr : option apierror),
         serve _ (GetPVC (Namespace pod, claim)) w1 = (inl e, w2) ->
         IsNotFound e = true ->
         ParseQuantity (storageSize pod) = inl perr ->
         ParseQuantity "2Gi" = inr twoGi ->
         serve _ (Create (PersistentVolumeClaimReconciler_claim
                            pod claim twoGi (storageClass pod))) w2 = (cerr, w3) ->
         exists (res : Result) (tr : list sent),
           run (RegisteredReconcile r' req) w = (Returned (res, cerr), w3, tr)
           /\ Logged "error" "Invalid storage-size annotation, defaulting to 2Gi" ∈ tr
           /\ creates tr
              = [PersistentVolumeClaimReconciler_claim pod claim twoGi (storageClass pod)]).
Proof.
  intros Hpod Hann Hne. split.
  - intros Hdel Hparse. by eapply PVCReconcile_bad_size.
  - intros e w2 w3 twoGi cerr Hget Hnf Hparse H2 Hcreate.
    destruct (RegisteredReconcile_create r' req w w1 w2 w3 pod claim e twoGi cerr)
      as (res & tr & Hrun & _ & Hcr & _ & Hlog); eauto.
    exists res, tr. split_and!; auto. apply Hlog. eauto.
Qed.


End ReconcilerFacts.

(** *** The reconcilers on the example clusters *)

Section ReconcilerExamples.

Import controllers cluster_fixtures.

(** C4, the claim as stated fails: the registered reconciler, on a pod
    whose claim [pvc-x] does not exist and whose size annotation [lots]
    does not parse, creates the claim, with 2Gi. *)
Lemma registered_reconciler_substitutes_2Gi :
  let '(res, _, tr) :=
    run (PersistentVolumeClaimReconciler_Reconcile demoParseQuantity registered web0Key)
        (clusterOf (claimedPod "lots") []) in
  demoParseQuantity (storageSize (claimedPod "lots")) = inl badQuantity
  /\ creates tr
     = [PersistentVolumeClaimReconciler_claim (claimedPod "lots") "pvc-x" (2 * 2 ^ 30)%N ""]
  /\ creates tr <> [].
Proof. vm_compute. split_and!; [reflexivity..|discriminate]. Qed.

Lemma unparseable_size_by_reconciler_witness :
  (run (PVCReconciler_Reconcile demoParseQuantity reconciler web0Key)
       (clusterOf (claimedPod "lots") [])).2
  = [SentGetPod web0Key; Logged "error" "invalid storage size"].
Proof.
  destruct (unparseable_size_by_reconciler demoParseQuantity (W := cluster)
              reconciler registered web0Key (clusterOf (claimedPod "lots") [])
              (clusterOf (claimedPod "lots") []) (claimedPod "lots") "pvc-x"
              badQuantity) as [Hskip _];
    [reflexivity | reflexivity | discriminate |].
  rewrite Hskip; reflexivity.
Defined.




End ReconcilerExamples.

(** * Further properties of the code *)

(** ** [pathEscape] *)

Section PathEscapeFacts.

Import strings webhook.

Lemma escapeJSONPointer_cons (c : ascii) (k : string) :
  escapeJSONPointer (String c k) = escapeByte c +:+ escapeJSONPointer k.
Proof.
  unfold escapeJSONPointer.
  change (String c k) with (String c "" +:+ k).
  rewrite (ReplaceAll_byte_app "~" "~0"), (ReplaceAll_byte_app "/" "~1").
  f_equal. unfold escapeByte, ReplaceAll.
  cbn [replace_from HasPrefix String.length Nat.sub].
  destruct (Ascii.eqb "~" c) eqn:Ht; cbv iota; [reflexivity|].
  cbn [replace_from HasPrefix String.length Nat.sub].
  by destruct (Ascii.eqb "/" c).
Qed.

(** Decoding undoes the escaping. *)
Lemma unescape_escape (k : string) : unescapeToken (escapeJSONPointer k) = k.
Proof.
  unfold unescapeToken.
  assert (ReplaceAll (escapeJSONPointer k) "~1" "/" = ReplaceAll k "~" "~0") as ->.
  { unfold ReplaceAll. induction k as [|c k IH]; [reflexivity|].
    rewrite escapeJSONPointer_cons. unfold escapeByte.
    destruct (Ascii.eqb "~" c) eqn:Ht.
    - apply Ascii.eqb_eq in Ht as <-.
      change (replace_from 0 ("~0" +:+ escapeJSONPointer k) "~1" "/")
        with (String "~" (String "0" (replace_from 0 (escapeJSONPointer k) "~1" "/"))).
      rewrite IH. reflexivity.
    - destruct (Ascii.eqb "/" c) eqn:Hs.
      + apply Ascii.eqb_eq in Hs as <-.
        change (replace_from 0 ("~1" +:+ escapeJSONPointer k) "~1" "/")
          with (String "/" (replace_from 0 (escapeJSONPointer k) "~1" "/")).
        rewrite IH. reflexivity.
      + rewrite string_app_cons. change ("" +:+ escapeJSONPointer k) with (escapeJSONPointer k).
        cbn [replace_from HasPrefix String.length Nat.sub].
        rewrite Ht. cbv iota. rewrite IH. reflexivity. }
  unfold ReplaceAll. induction k as [|c k IH]; [reflexivity|].
  cbn [replace_from HasPrefix String.length Nat.sub].
  destruct (Ascii.eqb "~" c) eqn:Ht; cbv iota.
  - apply Ascii.eqb_eq in Ht as <-.
    change (replace_from 0 ("~0" +:+ replace_from 0 k "~" "~0") "~0" "~")
      with (String "~" (replace_from 0 (replace_from 0 k "~" "~0") "~0" "~")).
    by rewrite IH.
  - cbn [replace_from HasPrefix String.length Nat.sub]. rewrite Ht. cbv iota.
    by rewrite IH.
Qed.

Lemma escapeJSONPointer_inj (p q : string) :
  escapeJSONPointer p = escapeJSONPointer q -> p = q.
Proof. intros Heq. by rewrite <- (unescape_escape p), Heq, unescape_escape. Qed.

Lemma pathEscape_eq (p : string) : pathEscape p = "/" +:+ escapeJSONPointer p.
Proof.
  pose proof (escaped_slash_free (ReplaceAll p "~" "~0")) as Hfree.
  unfold pathEscape, escapeJSONPointer, TrimPrefix. cbv zeta.
  destruct (ReplaceAll (ReplaceAll p "~" "~0") "/" "~1") as [|c t] eqn:He; [reflexivity|].
  cbn [Contains] in Hfree. apply orb_false_iff in Hfree as [-> _]. reflexivity.
Qed.

(** [pathEscape] escapes every separator of its argument, the leading one
    included, so its [TrimPrefix] finds nothing to trim: the result is one
    slash followed by the escaping of the whole argument, and holds no
    other slash. *)
Theorem pathEscape_escapes_everything (p : string) :
  pathEscape p = "/" +:+ escapeJSONPointer p
  /\ Contains (escapeJSONPointer p) "/" = false.
Proof. split; [apply pathEscape_eq | apply escaped_slash_free]. Qed.

(** Distinct arguments get distinct paths. *)
Theorem pathEscape_injective (p q : string) : p <> q -> pathEscape p <> pathEscape q.
Proof.
  rewrite !pathEscape_eq. intros Hne Heq%(inj (String.app "/")).
  by apply Hne, escapeJSONPointer_inj.
Qed.

End PathEscapeFacts.

Lemma pathEscape_injective_witness :
  webhook.pathEscape "a/b" <> webhook.pathEscape "a~1b".
Proof. apply (pathEscape_injective "a/b" "a~1b"). discriminate. Defined.

(** ** [sanitize] *)

Section SanitizeFacts.

Import strings webhook.

Variable unicode_lower : string -> string.

Lemma Contains_tail (c : ascii) (s sub : string) :
  Contains (String c s) sub = false -> Contains s sub = false.
Proof. cbn [Contains]. by intros [_ ?]%orb_false_iff. Qed.

Lemma TrimLeft_no_double (s : string) :
  Contains s "--" = false -> Contains (TrimLeft s "-") "--" = false.
Proof.
  induction s as [|c s IH]; intros Hs; [reflexivity|].
  cbn [TrimLeft]. destruct (IndexByte "-" c); [|exact Hs].
  apply IH. by eapply Contains_tail.
Qed.

(** The trimmed string begins as the string does. *)
Lemma TrimRight_first (s : string) (d : ascii) (r : string) :
  TrimRight s "-" = String d r -> exists s', s = String d s'.
Proof.
  destruct s as [|c s]; [discriminate|]. cbn [TrimRight].
  destruct (TrimRight s "-") as [|e t].
  - destruct (IndexByte "-" c); intros H; [discriminate|]. injection H as -> _. eauto.
  - intros H. injection H as -> _. eauto.
Qed.

Lemma TrimRight_no_double (s : string) :
  Contains s "--" = false -> Contains (TrimRight s "-") "--" = false.
Proof.
  induction s as [|c s IH]; intros Hs; [reflexivity|].
  pose proof (Contains_tail _ _ _ Hs) as Hs'. specialize (IH Hs').
  cbn [Contains] in Hs. apply orb_false_iff in Hs as [Hp _].
  cbn [TrimRight]. destruct (TrimRight s "-") as [|d r] eqn:Hr.
  - destruct (IndexByte "-" c); [reflexivity|]. cbn [Contains HasPrefix].
    by destruct (Ascii.eqb "-" c).
  - change (Contains (String c (String d r)) "--")
      with (HasPrefix (String c (String d r)) "--" || Contains (String d r) "--").
    rewrite IH, orb_false_r.
    destruct (TrimRight_first _ _ _ Hr) as [s' ->].
    cbn [HasPrefix] in *. exact Hp.
Qed.

Lemma sanitize_no_double (s : string) : Contains (sanitize unicode_lower s) "--" = false.
Proof.
  unfold sanitize, Trim. apply TrimRight_no_double, TrimLeft_no_double.
  by apply collapse_loop_exits.
Qed.

(** The bytes of the class are ASCII, not upper case, and not the underscore. *)
Lemma class_byte (c : ascii) :
  nameRe_class c = true ->
  byte_in 0 127 c = true /\ lower_byte c = c /\ Ascii.eqb "_" c = false.
Proof.
  unfold nameRe_class, lower_byte, byte_in. intros Hc.
  assert ((97 <= N_of_ascii c <= 122)%N \/ (48 <= N_of_ascii c <= 57)%N
          \/ N_of_ascii c = 45%N) as Hrange.
  { apply orb_true_iff in Hc as [Hc|Hc]; [apply orb_true_iff in Hc as [Hc|Hc]|].
    - apply andb_true_iff in Hc as [?%N.leb_le ?%N.leb_le]. auto.
    - apply andb_true_iff in Hc as [?%N.leb_le ?%N.leb_le]. auto.
    - apply Ascii.eqb_eq in Hc as ->. auto. }
  split_and!.
  - apply andb_true_iff. split; apply N.leb_le; lia.
  - destruct ((65 <=? N_of_ascii c)%N && (N_of_ascii c <=? 90)%N) eqn:Hup; [|reflexivity].
    apply andb_true_iff in Hup as [?%N.leb_le ?%N.leb_le]. lia.
  - apply Ascii.eqb_neq. intros <-. simpl in Hrange. lia.
Qed.

(** A string of class bytes goes through the first three steps unchanged. *)
Lemma class_steps_id (s : string) :
  all_bytes nameRe_class s = true ->
  nameRe_ReplaceAllString (ReplaceAll (ToLower unicode_lower s) "_" "-") "-" = s.
Proof.
  intros Hs.
  assert (all_bytes (byte_in 0 127) s = true /\ map_bytes lower_byte s = s
          /\ ReplaceAll s "_" "-" = s /\ nameRe_ReplaceAllString s "-" = s)
    as (Hascii & Hlow & Hund & Hre).
  { unfold ReplaceAll, nameRe_ReplaceAllString.
    induction s as [|c s IH]; [done|].
    simpl in Hs. apply andb_true_iff in Hs as [Hc Hs].
    destruct (IH Hs) as (IH1 & IH2 & IH3 & IH4).
    destruct (class_byte c Hc) as (Ha & Hl & Hu).
    cbn [all_bytes map_bytes replace_from nameRe_replace_from HasPrefix].
    rewrite Ha, IH1, Hl, IH2, Hu, Hc, IH3, IH4. done. }
  unfold ToLower. by rewrite Hascii, Hlow, Hund, Hre.
Qed.

Lemma TrimRight_id (s : string) : ends_alnum s = true -> TrimRight s "-" = s.
Proof.
  induction s as [|c s IH]; [discriminate|]. intros He.
  cbn [TrimRight]. destruct s as [|d s].
  - cbn [TrimRight IndexByte]. rewrite orb_false_r.
    destruct (Ascii.eqb c "-") eqn:Hc; [|reflexivity].
    apply Ascii.eqb_eq in Hc as ->. discriminate.
  - rewrite IH by exact He. reflexivity.
Qed.

Lemma sanitize_fixed (s : string) :
  matchesNamePattern s = true ->
  Contains s "--" = false ->
  sanitize unicode_lower s = s.
Proof.
  intros Hm Hd. destruct s as [|c rest]; [discriminate|].
  assert (alnum c = true /\ all_bytes nameRe_class rest = true
          /\ ends_alnum (String c rest) = true) as (Hc & Hrest & Hend).
  { unfold matchesNamePattern in Hm. destruct rest as [|d rest]; [done|].
    apply andb_true_iff in Hm as [[Hc Hr]%andb_true_iff He]. done. }
  assert (nameRe_class c = true) as Hcc.
  { unfold nameRe_class. unfold alnum in Hc. by rewrite Hc. }
  assert (Ascii.eqb c "-" = false) as Hnh.
  { apply Ascii.eqb_neq. intros ->. discriminate. }
  unfold sanitize. rewrite class_steps_id by (simpl; by rewrite Hcc, Hrest).
  assert (collapse_loop (String.length (String c rest)) (String c rest) = String c rest)
    as ->.
  { cbn [String.length collapse_loop]. by rewrite Hd. }
  unfold Trim. cbn [TrimLeft IndexByte]. rewrite Hnh. cbn [orb].
  by apply TrimRight_id.
Qed.

(** A name of the pattern that holds no double hyphen is a fixed point of
    the sanitizer. *)
Theorem sanitize_keeps_valid_names (s : string) :
  matchesNamePattern s = true ->
  Contains s "--" = false ->
  sanitize unicode_lower s = s.
Proof. apply sanitize_fixed. Qed.

(** The sanitizer's result is empty or matches the name pattern, and holds
    no double hyphen. *)
Theorem sanitize_output_valid (s : string) :
  (sanitize unicode_lower s = "" \/ matchesNamePattern (sanitize unicode_lower s) = true)
  /\ Contains (sanitize unicode_lower s) "--" = false.
Proof. split; [apply sanitize_valid_or_empty | apply sanitize_no_double]. Qed.

(** Sanitizing twice is sanitizing once. *)
Theorem sanitize_idempotent (s : string) :
  sanitize unicode_lower (sanitize unicode_lower s) = sanitize unicode_lower s.
Proof.
  destruct (sanitize_valid_or_empty unicode_lower s) as [->|Hm]; [reflexivity|].
  apply sanitize_fixed; [exact Hm | apply sanitize_no_double].
Qed.

End SanitizeFacts.

Lemma sanitize_keeps_valid_names_witness :
  webhook.sanitize fixtures.unicode_lower "pvc-ns1-web-0-data" = "pvc-ns1-web-0-data".
Proof.
  apply (sanitize_keeps_valid_names fixtures.unicode_lower "pvc-ns1-web-0-data");
    reflexivity.
Defined.

(** ** [pick], [getEnv] and [NewHandler] *)

Section ConfigFacts.

Import webhook.

Variable TrimSpace : string -> string.

(** [pick] returns the first value that is not blank, as it stands
    (untrimmed), and the empty string when every value is blank. *)
Theorem pick_first_nonblank (vals : list string) :
  (exists (pre : list string) (v : string) (post : list string),
      vals = pre ++ v :: post
      /\ Forall (fun u => TrimSpace u = "") pre
      /\ TrimSpace v <> ""
      /\ pick TrimSpace vals = v)
  \/ (Forall (fun u => TrimSpace u = "") vals /\ pick TrimSpace vals = "").
Proof.
  induction vals as [|u vals IH]; [right; by split|].
  cbn [pick]. destruct (String.eqb_spec (TrimSpace u) "") as [Hu|Hu].
  - destruct IH as [(pre & v & post & -> & Hpre & Hv & Hpick)|[Hall Hpick]].
    + left. exists (u :: pre), v, post. split_and!; auto.
    + right. split; auto.
  - left. exists [], u, vals. split_and!; auto.
Qed.

(** Whatever the environment holds, no default of the handler is the empty
    string: a variable that is unset or set to the empty string gives the
    built-in default, any other value is taken as it is. *)
Theorem NewHandler_defaults (env : gmap string string) :
  let h := NewHandler env in
  let chosen (k def : string) :=
    match env !! k with
    | Some v => if decide (v = "") then def else v
    | None => def
    end in
  defaultSize h = chosen "DEFAULT_SIZE" "10Gi"
  /\ defaultSC h = chosen "DEFAULT_STORAGE_CLASS" "standard"
  /\ defaultAccess h = chosen "DEFAULT_ACCESS_MODES" "ReadWriteOnce"
  /\ defaultSize h <> "" /\ defaultSC h <> "" /\ defaultAccess h <> "".
Proof.
  assert (forall k def, def <> "" ->
            getEnv env k def
            = match env !! k with
              | Some v => if decide (v = "") then def else v
              | None => def
              end
            /\ getEnv env k def <> "") as Hget.
  { intros k def Hdef. unfold getEnv, Getenv. destruct (env !! k) as [v|]; simpl.
    - destruct (String.eqb_spec v "") as [->|Hv]; cbn [negb];
        destruct (decide _); done.
    - done. }
  cbv zeta. unfold NewHandler. cbn [defaultSize defaultSC defaultAccess].
  destruct (Hget "DEFAULT_SIZE" "10Gi") as [H1 ?]; [done|].
  destruct (Hget "DEFAULT_STORAGE_CLASS" "standard") as [H2 ?]; [done|].
  destruct (Hget "DEFAULT_ACCESS_MODES" "ReadWriteOnce") as [H3 ?]; [done|].
  split_and!; auto.
Qed.

End ConfigFacts.

(** ** The outcomes of [ServeHTTP] *)

Section HandlerOutcomes.

Import webhook.

Variable json_Decode : string -> AdmissionReview * option error.
Variable deser_Decode : string -> Pod * option error.
Variable json_Marshal : list patchOp -> string * option error.
Variable unicode_lower : string -> string.
Variable TrimSpace : string -> string.
Variable range_order : gmap string string -> list (string * string).

Local Abbreviation ServeHTTP :=
  (webhook.ServeHTTP json_Decode deser_Decode json_Marshal unicode_lower TrimSpace
                     range_order).
Local Abbreviation loop_end := (webhook.loop_end unicode_lower TrimSpace).
Local Abbreviation volumes_loop := (webhook.volumes_loop unicode_lower TrimSpace).

(** The loop sets [converted] exactly when it meets an [emptyDir] volume. *)
Lemma volumes_loop_converted (h : Handler) (pod : Pod) (i : nat) (vs : list Volume)
      (st : loop_state) :
  converted (volumes_loop h pod i vs st) = true
  <-> converted st = true \/ exists v, v ∈ vs /\ is_Some (EmptyDir v).
Proof.
  revert i st. induction vs as [|v vs IH]; intros i st; simpl.
  { split; [auto|]. intros [?|(v & ?%elem_of_nil & _)]; done. }
  rewrite IH. unfold volume_step. destruct (EmptyDir v) as [e|] eqn:He; simpl.
  - split; [|auto]. intros _. right. exists v. split; [by left | by rewrite He].
  - split.
    + intros [?|(w & Hw & ?)]; [auto|]. right. exists w. split; [by right | done].
    + intros [?|(w & Hw & Hsome)]; [auto|].
      apply elem_of_cons in Hw as [->|Hw]; [|eauto].
      rewrite He in Hsome. by destruct Hsome.
Qed.

Lemma loop_end_converted (h : Handler) (pod : Pod) :
  converted (loop_end h pod) = true
  <-> exists v, v ∈ Volumes pod /\ is_Some (EmptyDir v).
Proof.
  unfold webhook.loop_end. rewrite volumes_loop_converted. simpl.
  split; [by intros [?|?] | auto].
Qed.

(** The handler panics exactly on the bodies whose decoding leaves the
    request nil, whether the decoding failed or not. *)
Theorem ServeHTTP_panics_iff_nil_request (h : Handler) (body : string) :
  (exists msg, ServeHTTP h body = Panicked msg) <-> Request (json_Decode body).1 = None.
Proof.
  unfold webhook.ServeHTTP, allow, toErrorResponse, writeReview.
  destruct (json_Decode body) as [review err]. simpl.
  destruct (Request review) as [req|] eqn:Hreq; cycle 1.
  { split; [done|]. intros _. destruct err; eauto. }
  split; [|done]. intros [msg Hp]. exfalso.
  destruct err; [done|].
  destruct (negb _); [done|].
  destruct (deser_Decode _) as [pod [e|]]; [done|].
  destruct (match Annotations pod with None => false | Some _ => _ end); [done|].
  destruct (negb _); [done|].
  destruct (json_Marshal _) as [bytes [e|]]; done.
Qed.

(** What the handler writes is always a JSON review that answers the
    request: it echoes the request's UID; it carries a patch type exactly
    when it carries a patch, and then it allows; it denies exactly when it
    carries a status of code 500. *)
Theorem ServeHTTP_written_answers_request (h : Handler) (body ct : string)
        (ar : AdmissionReview) :
  ServeHTTP h body = Written ct ar ->
  ct = "application/json"
  /\ Request ar = None
  /\ exists (req : AdmissionRequest) (resp : AdmissionResponse),
       Request (json_Decode body).1 = Some req
       /\ Response ar = Some resp
       /\ respUID resp = rUID req
       /\ (is_Some (Patch resp) <-> PatchType resp = Some PatchTypeJSONPatch)
       /\ (is_Some (Patch resp) -> Allowed resp = true)
       /\ (Allowed resp = false
           <-> exists msg, Result resp = Some {| Message := msg; Code := 500 |}).
Proof.
  unfold webhook.ServeHTTP.
  assert (forall f review req,
             Request review = Some req ->
             (f = allow review \/ exists err, f = toErrorResponse review err) ->
             writeReview f = Written ct ar ->
             ct = "application/json" /\ Request ar = None
             /\ exists req' resp,
                 Some req = Some req' /\ Response ar = Some resp
                 /\ respUID resp = rUID req'
                 /\ (is_Some (Patch resp) <-> PatchType resp = Some PatchTypeJSONPatch)
                 /\ (is_Some (Patch resp) -> Allowed resp = true)
                 /\ (Allowed resp = false
                     <-> exists msg, Result resp = Some {| Message := msg; Code := 500 |}))
    as Hplain.
  { intros f review req Hreq [->|[err ->]]; unfold allow, toErrorResponse, writeReview;
      rewrite Hreq; intros [= <- <-]; (split; [done|]); (split; [done|]);
      eexists req, _; (split; [done|]); (split; [reflexivity|]); simpl;
      split_and!; try done; try (by intros [? [=]]); try (split; [by intros [? [=]]|done]).
    - split; [done|]. by intros [? [=]].
    - split; eauto. }
  destruct (json_Decode body) as [review err]. simpl.
  destruct (Request review) as [req|] eqn:Hreq; cycle 1.
  { unfold allow, toErrorResponse, writeReview. rewrite Hreq. by destruct err. }
  destruct err as [err|]; [eapply Hplain; eauto|].
  destruct (negb _); [eapply Hplain; eauto|].
  destruct (deser_Decode _) as [pod [e|]]; [eapply Hplain; eauto|].
  destruct (match Annotations pod with None => false | Some _ => _ end);
    [eapply Hplain; eauto|].
  destruct (negb _); [eapply Hplain; eauto|].
  destruct (json_Marshal _) as [bytes [e|]]; [eapply Hplain; eauto|].
  unfold writeReview. intros [= <- <-]. split; [done|]. split; [done|].
  eexists req, _. split; [done|]. split; [reflexivity|]. simpl.
  split_and!; try done.
  split; [done|]. by intros [? [=]].
Qed.

(** A review of any kind but [Pod] is allowed without a patch, and without
    a look at the object it carries. *)
Theorem ServeHTTP_other_kind_allowed (h : Handler) (body : string)
        (review : AdmissionReview) (req : AdmissionRequest) :
  json_Decode body = (review, None) ->
  Request review = Some req ->
  Kind req <> "Pod" ->
  ServeHTTP h body
  = Written "application/json"
      {| Request := None;
         Response := Some {| respUID := rUID req; Allowed := true; Patch := None;
                             PatchType := None; Result := None |} |}.
Proof.
  intros Hdec Hreq Hkind. unfold webhook.ServeHTTP, allow. rewrite Hdec, Hreq.
  apply String.eqb_neq in Hkind. by rewrite Hkind.
Qed.

(** A pod without an [emptyDir] volume is allowed without a patch. *)
Theorem ServeHTTP_no_emptyDir_allowed (h : Handler) (body : string)
        (review : AdmissionReview) (req : AdmissionRequest) (pod : Pod) :
  json_Decode body = (review, None) ->
  Request review = Some req ->
  deser_Decode (ObjectRaw req) = (pod, None) ->
  Forall (fun v => EmptyDir v = None) (Volumes pod) ->
  ServeHTTP h body
  = Written "application/json"
      {| Request := None;
         Response := Some {| respUID := rUID req; Allowed := true; Patch := None;
                             PatchType := None; Result := None |} |}.
Proof.
  intros Hdec Hreq Hpod Hvols. unfold webhook.ServeHTTP, allow. rewrite Hdec, Hreq.
  destruct (negb _); [reflexivity|]. rewrite Hpod.
  destruct (match Annotations pod with None => false | Some _ => _ end); [reflexivity|].
  destruct (converted (loop_end h pod)) eqn:Hc; [|reflexivity].
  apply loop_end_converted in Hc as (v & Hin & Hsome).
  rewrite Forall_forall in Hvols. rewrite (Hvols v Hin) in Hsome. by destruct Hsome.
Qed.

(** A pod of kind [Pod] that decodes, is not marked converted and has an
    [emptyDir] volume gets the patch that [json.Marshal] makes of the
    operations, with the patch type and the message; if the marshalling
    fails, the request is denied with the error. *)
Theorem ServeHTTP_converts (h : Handler) (body : string)
        (review : AdmissionReview) (req : AdmissionRequest) (pod : Pod) (v : Volume)
        (bytes : string) (err : option error) :
  json_Decode body = (review, None) ->
  Request review = Some req ->
  Kind req = "Pod" ->
  deser_Decode (ObjectRaw req) = (pod, None) ->
  index (Annotations pod) convertedAnno <> "true" ->
  v ∈ Volumes pod -> is_Some (EmptyDir v) ->
  json_Marshal (patch_ops range_order pod (loop_end h pod)) = (bytes, err) ->
  ServeHTTP h body
  = Written "application/json"
      {| Request := None;
         Response := Some
           match err with
           | None =>
               {| respUID := rUID req; Allowed := true; Patch := Some bytes;
                  PatchType := Some PatchTypeJSONPatch;
                  Result := Some {| Message := "converted emptyDir to PVC"; Code := 0 |} |}
           | Some e =>
               {| respUID := rUID req; Allowed := false; Patch := None;
                  PatchType := None;
                  Result := Some {| Message := "marshal patch: " +:+ e; Code := 500 |} |}
           end |}.
Proof.
  intros Hdec Hreq Hkind Hpod Hmark Hin Hsome Hmarshal.
  unfold webhook.ServeHTTP, toErrorResponse. rewrite Hdec, Hreq, Hkind, Hpod. simpl.
  apply String.eqb_neq in Hmark. rewrite Hmark.
  assert (converted (loop_end h pod) = true) as ->.
  { apply loop_end_converted. eauto. }
  simpl. rewrite Hmarshal. destruct (Annotations pod); by destruct err.
Qed.

End HandlerOutcomes.

Section HandlerOutcomeExamples.

Import webhook fixtures.

Lemma ServeHTTP_written_answers_request_witness :
  exists resp : AdmissionResponse,
    Response web0_written = Some resp /\ respUID resp = "uid-1".
Proof.
  destruct (ServeHTTP_written_answers_request json_Decode deser_Decode json_Marshal
              unicode_lower TrimSpace range_order handler "review of web-0"
              "application/json" web0_written)
    as (_ & _ & req & resp & Hreq & Hresp & Huid & _); [by vm_compute|].
  exists resp. split; [exact Hresp|]. rewrite Huid.
  vm_compute in Hreq. by injection Hreq as <-.
Defined.

Lemma ServeHTTP_other_kind_allowed_witness :
  more_fixtures.ServeHTTP handler "review of a service"
  = Written "application/json"
      {| Request := None;
         Response := Some {| respUID := "uid-9"; Allowed := true; Patch := None;
                             PatchType := None; Result := None |} |}.
Proof.
  apply (ServeHTTP_other_kind_allowed more_fixtures.json_Decode
           more_fixtures.deser_Decode json_Marshal unicode_lower TrimSpace range_order
           handler "review of a service" more_fixtures.serviceReview
           {| rUID := "uid-9"; Kind := "Service"; ObjectRaw := "service" |});
    [reflexivity | reflexivity | discriminate].
Defined.

Lemma ServeHTTP_no_emptyDir_allowed_witness :
  more_fixtures.ServeHTTP handler "review of a plain pod"
  = Written "application/json"
      {| Request := None;
         Response := Some {| respUID := "uid-8"; Allowed := true; Patch := None;
                             PatchType := None; Result := None |} |}.
Proof.
  apply (ServeHTTP_no_emptyDir_allowed more_fixtures.json_Decode
           more_fixtures.deser_Decode json_Marshal unicode_lower TrimSpace range_order
           handler "review of a plain pod" (podReview "uid-8" "plain")
           {| rUID := "uid-8"; Kind := "Pod"; ObjectRaw := "plain" |}
           more_fixtures.plainPod);
    [reflexivity | reflexivity | reflexivity |].
  repeat constructor.
Defined.

Lemma ServeHTTP_converts_witness :
  more_fixtures.ServeHTTP_failing_Marshal handler "review of web-0"
  = Written "application/json"
      {| Request := None;
         Response := Some
           {| respUID := "uid-1"; Allowed := false; Patch := None; PatchType := None;
              Result := Some {| Message := "marshal patch: json: error calling MarshalJSON";
                                Code := 500 |} |} |}.
Proof.
  apply (ServeHTTP_converts more_fixtures.json_Decode more_fixtures.deser_Decode
           more_fixtures.failing_Marshal unicode_lower TrimSpace range_order
           handler "review of web-0" (podReview "uid-1" "web-0")
           {| rUID := "uid-1"; Kind := "Pod"; ObjectRaw := "web-0" |}
           web0 (emptyDirVolume "data") "" (Some "json: error calling MarshalJSON"));
    [reflexivity | reflexivity | reflexivity | reflexivity | discriminate
    | by left | by eexists | reflexivity].
Defined.

End HandlerOutcomeExamples.

(** ** The annotations the handler records and the paths of its patch *)

Section RecordedAnnotations.

Import strings webhook.

Variable unicode_lower : string -> string.
Variable TrimSpace : string -> string.
Variable range_order : gmap string string -> list (string * string).

Local Abbreviation loop_end := (webhook.loop_end unicode_lower TrimSpace).
Local Abbreviation volumes_loop := (webhook.volumes_loop unicode_lower TrimSpace).
Local Abbreviation volume_step := (webhook.volume_step unicode_lower TrimSpace).
Local Abbreviation recorded := (recordedValue unicode_lower TrimSpace).
Local Abbreviation records := (records unicode_lower TrimSpace).

Lemma last2_app (s t : string) : 2 <= String.length t -> last2 (s +:+ t) = last2 t.
Proof.
  intros Ht. induction s as [|c s IH]; [reflexivity|].
  rewrite string_app_cons.
  assert (2 <= String.length (s +:+ t)) as Hlen.
  { rewrite string_length_app. lia. }
  destruct (s +:+ t) as [|a [|b r]] eqn:Hst; simpl in Hlen; try lia.
  exact IH.
Qed.

(** A key tells its volume and its suffix. *)
Lemma volumeAnnotation_inj (n1 n2 s1 s2 : string) :
  s1 ∈ parameterSuffixes -> s2 ∈ parameterSuffixes ->
  volumeAnnotation n1 s1 = volumeAnnotation n2 s2 -> n1 = n2 /\ s1 = s2.
Proof.
  unfold parameterSuffixes, volumeAnnotation. intros H1 H2 Heq.
  assert (s1 = s2) as <-.
  { apply (f_equal last2) in Heq.
    repeat (apply elem_of_cons in H1 as [->|H1]); [..|by apply elem_of_nil in H1];
      (repeat (apply elem_of_cons in H2 as [->|H2]); [..|by apply elem_of_nil in H2]);
      try reflexivity;
      rewrite !last2_app in Heq by (simpl; lia); discriminate Heq. }
  split; [|reflexivity].
  apply string_app_inj_2 in Heq as [Heq _]; [|reflexivity].
  by apply (inj (String.app "pvc-webhook.vol/")) in Heq.
Qed.

(** The map after a turn of the loop on an [emptyDir] volume. *)
Lemma volume_step_lookup (h : Handler) (pod : Pod) (st : loop_state) (i : nat)
      (v : Volume) (k x : string) :
  is_Some (EmptyDir v) ->
  addAnno (volume_step h pod st i v) !! k = Some x
  <-> (exists suffix, suffix ∈ parameterSuffixes
                      /\ k = volumeAnnotation (vName v) suffix
                      /\ x = recorded h pod (vName v) suffix)
      \/ ((forall suffix, suffix ∈ parameterSuffixes ->
                          k <> volumeAnnotation (vName v) suffix)
          /\ addAnno st !! k = Some x).
Proof.
  intros [e He]. unfold webhook.volume_step. rewrite He. cbn [addAnno].
  change ("pvc-webhook.vol/" +:+ vName v +:+ ?suf) with (volumeAnnotation (vName v) suf).
  assert (forall suffix, suffix ∈ parameterSuffixes ->
            suffix = ".size" \/ suffix = ".storageClass" \/ suffix = ".accessModes"
            \/ suffix = ".claimName") as Hcases.
  { unfold parameterSuffixes. intros suffix Hs.
    repeat (apply elem_of_cons in Hs as [->|Hs]); auto. by apply elem_of_nil in Hs. }
  assert (forall suffix suffix', suffix ∈ parameterSuffixes -> suffix' ∈ parameterSuffixes ->
            volumeAnnotation (vName v) suffix = volumeAnnotation (vName v) suffix' ->
            suffix = suffix') as Hinj.
  { intros s1 s2 H1 H2 Heq. by destruct (volumeAnnotation_inj _ _ _ _ H1 H2 Heq). }
  assert (".size" ∈ parameterSuffixes /\ ".storageClass" ∈ parameterSuffixes
          /\ ".accessModes" ∈ parameterSuffixes /\ ".claimName" ∈ parameterSuffixes)
    as (Hin1 & Hin2 & Hin3 & Hin4).
  { unfold parameterSuffixes. split_and!; repeat constructor. }
  rewrite !lookup_insert.
  repeat case_decide; subst.
  - split.
    + intros [= <-]. left. exists ".claimName". split_and!; auto.
    + intros [(s & Hs & Hk & ->)|[Hne _]]; [|by destruct (Hne ".claimName")].
      by rewrite <- (Hinj _ _ Hin4 Hs Hk).
  - split.
    + intros [= <-]. left. exists ".accessModes". split_and!; auto.
    + intros [(s & Hs & Hk & ->)|[Hne _]]; [|by destruct (Hne ".accessModes")].
      by rewrite <- (Hinj _ _ Hin3 Hs Hk).
  - split.
    + intros [= <-]. left. exists ".storageClass". split_and!; auto.
    + intros [(s & Hs & Hk & ->)|[Hne _]]; [|by destruct (Hne ".storageClass")].
      by rewrite <- (Hinj _ _ Hin2 Hs Hk).
  - split.
    + intros [= <-]. left. exists ".size". split_and!; auto.
    + intros [(s & Hs & Hk & ->)|[Hne _]]; [|by destruct (Hne ".size")].
      by rewrite <- (Hinj _ _ Hin1 Hs Hk).
  - split.
    + intros Hst. right. split; [|exact Hst].
      intros s Hs ->. destruct (Hcases s Hs) as [->|[->|[->| ->]]]; done.
    + intros [(s & Hs & -> & _)|[_ Hst]]; [|exact Hst].
      destruct (Hcases s Hs) as [->|[->|[->| ->]]]; done.
Qed.

Lemma volume_step_records (h : Handler) (pod : Pod) (st : loop_state) (i : nat)
      (v : Volume) (seen : list Volume) :
  records h pod seen (addAnno st) ->
  records h pod (seen ++ [v]) (addAnno (volume_step h pod st i v)).
Proof.
  intros Hinv k x. destruct (EmptyDir v) as [e|] eqn:He.
  - rewrite volume_step_lookup by (by rewrite He). rewrite (Hinv k x). split.
    + intros [(s & Hs & Hk & Hx)|[_ (w & s & Hw & Hsome & Hs & Hk & Hx)]].
      * exists v, s. split_and!; [|by rewrite He|done..].
        apply elem_of_app. right. by apply list_elem_of_singleton.
      * exists w, s. split_and!; [|done..]. apply elem_of_app. by left.
    + intros (w & s & Hw & Hsome & Hs & -> & ->).
      destruct (decide (vName w = vName v)) as [Hn|Hn].
      * left. exists s. by rewrite Hn.
      * right. split.
        -- intros s' Hs' Heq.
           by destruct (volumeAnnotation_inj _ _ _ _ Hs Hs' Heq) as [? _].
        -- exists w, s. split_and!; try done.
           apply elem_of_app in Hw as [Hw|Hw]; [done|].
           by apply list_elem_of_singleton in Hw as ->.
  - unfold webhook.volume_step. rewrite He. rewrite (Hinv k x). split.
    + intros (w & s & Hw & ?). exists w, s. split; [|done]. apply elem_of_app. by left.
    + intros (w & s & Hw & Hsome & ?). exists w, s. split; [|done].
      apply elem_of_app in Hw as [Hw|Hw]; [done|].
      apply list_elem_of_singleton in Hw as ->. rewrite He in Hsome. by destruct Hsome.
Qed.

Lemma volumes_loop_records (h : Handler) (pod : Pod) (i : nat) (vs : list Volume)
      (st : loop_state) (seen : list Volume) :
  records h pod seen (addAnno st) ->
  records h pod (seen ++ vs) (addAnno (volumes_loop h pod i vs st)).
Proof.
  revert i st seen. induction vs as [|v vs IH]; intros i st seen Hinv.
  { by rewrite app_nil_r. }
  simpl. replace (seen ++ v :: vs) with ((seen ++ [v]) ++ vs) by by rewrite <- List.app_assoc.
  apply IH. by apply volume_step_records.
Qed.

Lemma loop_end_records (h : Handler) (pod : Pod) :
  records h pod (Volumes pod) (addAnno (loop_end h pod)).
Proof.
  unfold webhook.loop_end. apply (volumes_loop_records h pod 0 (Volumes pod) loop_init []).
  intros k x. simpl. rewrite lookup_empty. split; [done|].
  by intros (v & s & ?%elem_of_nil & _).
Qed.

(** The annotations the handler records are exactly the four keys of every
    [emptyDir] volume, each with the value picked for that volume: the claim
    name, and for size, storage class and access modes the pod's own
    annotation of that key when it is not blank, else the handler's
    default. *)
Theorem recorded_annotations (h : Handler) (pod : Pod) (k x : string) :
  addAnno (loop_end h pod) !! k = Some x
  <-> exists v suffix,
        v ∈ Volumes pod /\ is_Some (EmptyDir v) /\ suffix ∈ parameterSuffixes
        /\ k = volumeAnnotation (vName v) suffix
        /\ x = recorded h pod (vName v) suffix.
Proof. apply loop_end_records. Qed.

End RecordedAnnotations.

Section PatchPaths.

Import strings webhook.

Variable unicode_lower : string -> string.
Variable TrimSpace : string -> string.
Variable range_order : gmap string string -> list (string * string).

Local Abbreviation loop_end := (webhook.loop_end unicode_lower TrimSpace).

Lemma volumePath_inj (i j : nat) : volumePath i = volumePath j -> i = j.
Proof.
  unfold volumePath. intros Heq%(inj (String.app "/spec/volumes/")).
  by apply (inj pretty) in Heq.
Qed.

Lemma annotationPath_inj (k1 k2 : string) :
  annotationPath k1 = annotationPath k2 -> k1 = k2.
Proof.
  rewrite !annotationPath_eq.
  intros Heq%(inj (String.app "/~1metadata~1annotations~1")).
  by apply escapeJSONPointer_inj.
Qed.

Lemma convertible_NoDup (i : nat) (vs : list Volume) : NoDup (convertible i vs).*1.
Proof.
  revert i. induction vs as [|v vs IH]; intros i; simpl; [constructor|].
  destruct (EmptyDir v); [|apply IH]. simpl. constructor; [|apply IH].
  intros Hin. pose proof (convertible_bound (S i) vs) as Hb.
  apply list_elem_of_fmap in Hin as ([j w] & -> & Hin).
  rewrite Forall_forall in Hb. specialize (Hb _ Hin). simpl in Hb. lia.
Qed.

(** The converted marker is not the key of a volume. *)
Lemma marker_not_recorded (volume suffix : string) :
  volumeAnnotation volume suffix <> convertedAnno.
Proof.
  unfold volumeAnnotation. intros Heq. apply (f_equal (take 12)) in Heq.
  cbv in Heq. discriminate Heq.
Qed.

(** No two operations of a patch address the same path, as long as the
    range over the recorded annotations yields every entry once. *)
Theorem patch_paths_distinct (h : Handler) (pod : Pod) :
  range_order (addAnno (loop_end h pod)) ≡ₚ map_to_list (addAnno (loop_end h pod)) ->
  NoDup (map Path (patch_ops range_order pod (loop_end h pod))).
Proof.
  intros Hperm. unfold patch_ops. cbv zeta.
  set (m := addAnno (loop_end h pod)) in *.
  set (A := ops (loop_end h pod)).
  set (B := match Annotations pod with
            | None => [addOp "/metadata/annotations" (MapValue ∅)]
            | Some _ => []
            end).
  set (C := map (fun kv : string * string =>
                   addOp (annotationPath kv.1) (StringValue kv.2)) (range_order m)).
  set (D := [addOp (annotationPath convertedAnno) (StringValue "true")]).
  assert (match Annotations pod with
          | None => A ++ [addOp "/metadata/annotations" (MapValue ∅)]
          | Some _ => A
          end = A ++ B) as ->.
  { unfold B. destruct (Annotations pod); [by rewrite app_nil_r | done]. }
  rewrite <- !List.app_assoc, !map_app.
  assert (forall x, x ∈ map Path A -> take 2 x = "/s") as HA.
  { unfold A. rewrite (loop_end_ops unicode_lower TrimSpace).
    intros x (o & -> & (iv & -> & _)%list_elem_of_fmap)%list_elem_of_fmap. reflexivity. }
  assert (forall x, x ∈ map Path B -> take 2 x = "/m") as HB.
  { unfold B. destruct (Annotations pod); simpl; intros x Hx.
    - by apply elem_of_nil in Hx.
    - by apply list_elem_of_singleton in Hx as ->. }
  assert (forall x, x ∈ map Path C ->
                    exists k v, x = annotationPath k /\ m !! k = Some v) as HC.
  { unfold C. intros x (o & -> & ([k v] & -> & Hin)%list_elem_of_fmap)%list_elem_of_fmap.
    exists k, v. split; [reflexivity|].
    rewrite Hperm in Hin. by apply elem_of_map_to_list in Hin. }
  assert (forall k, take 2 (annotationPath k) = "/~") as Htag.
  { intros k. by rewrite annotationPath_eq. }
  apply NoDup_app. split_and!.
  - unfold A. rewrite (loop_end_ops unicode_lower TrimSpace).
    rewrite <- list_fmap_compose.
    assert (NoDup (volumePath <$> (convertible 0 (Volumes pod)).*1)) as Hnd.
    { apply NoDup_fmap_2_strong; [intros i j _ _; apply volumePath_inj|].
      apply convertible_NoDup. }
    by rewrite <- list_fmap_compose in Hnd.
  - intros x Hx Hrest. apply HA in Hx.
    apply elem_of_app in Hrest as [Hb|Hrest]; [apply HB in Hb; congruence|].
    apply elem_of_app in Hrest as [Hc|Hd].
    + apply HC in Hc as (k & v & Hk & _). pose proof (Htag k). congruence.
    + apply list_elem_of_singleton in Hd. change (x = annotationPath convertedAnno) in Hd.
      pose proof (Htag convertedAnno). congruence.
  - apply NoDup_app. split_and!.
    + unfold B. destruct (Annotations pod); simpl; [constructor|apply NoDup_singleton].
    + intros x Hx Hrest. apply HB in Hx.
      apply elem_of_app in Hrest as [Hc|Hd].
      * apply HC in Hc as (k & v & Hk & _). pose proof (Htag k). congruence.
      * apply list_elem_of_singleton in Hd.
        change (x = annotationPath convertedAnno) in Hd.
        pose proof (Htag convertedAnno). congruence.
    + apply NoDup_app. split_and!.
      * unfold C. rewrite <- list_fmap_compose.
        assert (NoDup (annotationPath <$> (range_order m).*1)) as Hnd.
        { apply NoDup_fmap_2_strong; [intros i j _ _; apply annotationPath_inj|].
          rewrite Hperm. apply NoDup_fst_map_to_list. }
        by rewrite <- list_fmap_compose in Hnd.
      * intros x (k & v & -> & Hk)%HC Hd.
        apply list_elem_of_singleton in Hd.
        change (annotationPath k = annotationPath convertedAnno) in Hd.
        apply annotationPath_inj in Hd as ->.
        apply (loop_end_records unicode_lower TrimSpace) in Hk
          as (w & s & _ & _ & _ & Heq & _).
        symmetry in Heq. by apply marker_not_recorded in Heq.
      * apply NoDup_singleton.
Qed.

End PatchPaths.

Lemma patch_paths_distinct_witness :
  NoDup (map webhook.Path
           (webhook.patch_ops fixtures.range_order fixtures.web0
              (webhook.loop_end fixtures.unicode_lower fixtures.TrimSpace
                 fixtures.handler fixtures.web0))).
Proof.
  apply (patch_paths_distinct fixtures.unicode_lower fixtures.TrimSpace
           fixtures.range_order fixtures.handler fixtures.web0).
  reflexivity.
Defined.

Lemma recorded_annotations_witness :
  webhook.addAnno (webhook.loop_end fixtures.unicode_lower fixtures.TrimSpace
                     fixtures.other_handler fixtures.web0_again)
    !! "pvc-webhook.vol/data.size" = Some "1Gi".
Proof.
  apply (recorded_annotations fixtures.unicode_lower fixtures.TrimSpace
           fixtures.other_handler fixtures.web0_again).
  exists (fixtures.emptyDirVolume "data"), ".size".
  split_and!; [by right; left | by eexists | by left | reflexivity | by vm_compute].
Defined.

(** ** Further properties of the reconcilers *)

Section ReconcilerMore.

Import controllers.

Context {Quantity : Type}.
Variable ParseQuantity : string -> apierror + Quantity.
Context {W : Type} `{!Client (Quantity := Quantity) W}.

Local Abbreviation PVCReconcile := (PVCReconciler_Reconcile ParseQuantity).
Local Abbreviation RegisteredReconcile :=
  (PersistentVolumeClaimReconciler_Reconcile ParseQuantity).
Local Abbreviation BackupReconcile := (Backup_Reconcile ParseQuantity).
Local Abbreviation PodReconcile := (PodReconciler_Reconcile ParseQuantity).

Ltac pass := cbn [run bind call logInfo logError ret sent_of negb orb].

(** When the pod cannot be read, every reconciler stops after that one
    request: a pod that is not found ends the pass without error, any other
    error is returned. *)
Theorem unreadable_pod_ends_pass (r : PVCReconciler) (r' : PersistentVolumeClaimReconciler)
        (req : NamespacedName) (w w1 : W) (e : apierror) :
  serve _ (GetPod req) w = (inl e, w1) ->
  let out := (Returned (Result0, if IsNotFound e then None else Some e), w1,
              [SentGetPod req]) in
  run (PVCReconcile r req) w = out
  /\ run (RegisteredReconcile r' req) w = out
  /\ run (BackupReconcile req) w = out
  /\ run (PodReconcile req) w = out.
Proof.
  intros Hpod out. subst out.
  unfold PVCReconciler_Reconcile, PersistentVolumeClaimReconciler_Reconcile,
    Backup_Reconcile, PodReconciler_Reconcile.
  pass. rewrite Hpod. by destruct (IsNotFound e).
Qed.

(** A pod without the claim annotation, or with an empty one, is left
    alone by every reconciler: nothing is sent after the read of the pod. *)
Theorem unclaimed_pod_is_left_alone (r : PVCReconciler)
        (r' : PersistentVolumeClaimReconciler) (req : NamespacedName) (w w1 : W)
        (pod : Pod) :
  serve _ (GetPod req) w = (inr pod, w1) ->
  annotation pod "pvc-webhook/claim" = None \/ annotation pod "pvc-webhook/claim" = Some "" ->
  let out := (Returned (Result0, None), w1, [SentGetPod req]) in
  run (PVCReconcile r req) w = out
  /\ run (RegisteredReconcile r' req) w = out
  /\ run (BackupReconcile req) w = out
  /\ run (PodReconcile req) w = out.
Proof.
  intros Hpod Hann out. subst out.
  assert (index2 (Annotations pod) "pvc-webhook/claim" = ("", false)
          \/ index2 (Annotations pod) "pvc-webhook/claim" = ("", true)) as Hix.
  { unfold annotation, index2 in *. destruct Hann as [-> | ->]; auto. }
  unfold PVCReconciler_Reconcile, PersistentVolumeClaimReconciler_Reconcile,
    Backup_Reconcile, PodReconciler_Reconcile, index.
  pass. rewrite Hpod. by destruct Hix as [-> | ->].
Qed.

(** The registered reconciler, when the claim exists, only inspects its
    phase: bound ends the pass, pending asks for a requeue after 5 seconds,
    anything else after 10 seconds; nothing is created or deleted. *)
Theorem existing_claim_requeues_by_phase (r : PersistentVolumeClaimReconciler)
        (req : NamespacedName) (w w1 w2 : W) (pod : Pod) (claim : string)
        (pvc : PersistentVolumeClaim) :
  serve _ (GetPod req) w = (inr pod, w1) ->
  annotation pod "pvc-webhook/claim" = Some claim ->
  claim <> "" ->
  serve _ (GetPVC (Namespace pod, claim)) w1 = (inr pvc, w2) ->
  exists msg : string,
    run (RegisteredReconcile r req) w
    = (Returned ({| Requeue := false;
                    RequeueAfter :=
                      if String.eqb (Phase pvc) "Bound" then 0
                      else if String.eqb (Phase pvc) "Pending" then 5000000000
                      else 10000000000 |}, None),
       w2,
       [SentGetPod req; SentGetPVC (Namespace pod, claim); Logged "info" msg]).
Proof.
  intros Hpod Hann Hne Hget.
  unfold PersistentVolumeClaimReconciler_Reconcile. pass. rewrite Hpod. pass.
  rewrite (index_annotation _ _ _ Hann), (eqb_empty_false _ Hne).
  pass. rewrite Hget. unfold ClaimBound, ClaimPending.
  destruct (String.eqb (Phase pvc) "Bound"); [by eexists|].
  destruct (String.eqb (Phase pvc) "Pending"); by eexists.
Qed.

(** [PVCReconciler] never panics and never asks for a requeue, and a pass
    sends at most one write: one create or one delete, never both. *)
Theorem PVCReconcile_writes_at_most_once (r : PVCReconciler) (req : NamespacedName)
        (w : W) :
  exists (err : option apierror) (w' : W) (tr : list sent),
    run (PVCReconcile r req) w = (Returned (Result0, err), w', tr)
    /\ length (creates tr) + length (deletes tr) <= 1.
Proof.
  unfold PVCReconciler_Reconcile. pass.
  destruct (serve _ (GetPod req) w) as [[e|pod] w1]; pass.
  { destruct (IsNotFound e); eexists _, _, _; split; try reflexivity; simpl; lia. }
  destruct (index2 (Annotations pod) "pvc-webhook/claim") as [claim ok].
  destruct (negb ok || String.eqb claim "").
  { eexists _, _, _; split; try reflexivity; simpl; lia. }
  destruct (negb (IsZero (DeletionTimestamp pod))); pass.
  { destruct (serve _ (GetPVC _) w1) as [[e|pvc] w2]; pass.
    { eexists _, _, _; split; try reflexivity; simpl; lia. }
    destruct (serve _ (Delete pvc) w2) as [[delErr|] w3]; pass;
      eexists _, _, _; split; try reflexivity; simpl; lia. }
  destruct (ParseQuantity (PVCReconciler_sizeStr r pod)) as [perr|size]; pass.
  { eexists _, _, _; split; try reflexivity; simpl; lia. }
  destruct (serve _ (GetPVC _) w1) as [[e|pvc] w2]; pass; cycle 1.
  { eexists _, _, _; split; try reflexivity; simpl; lia. }
  destruct (IsNotFound e); pass; cycle 1.
  { eexists _, _, _; split; try reflexivity; simpl; lia. }
  destruct (serve _ (Create _) w2) as [[cerr|] w3]; pass;
    eexists _, _, _; split; try reflexivity; simpl; lia.
Qed.

(** As long as [2Gi] parses, the registered reconciler never panics: every
    pass returns, without a requeue or with one after 5 or 10 seconds, never
    with a requeue beside an error, and with at most one create. *)
Theorem RegisteredReconcile_returns (r : PersistentVolumeClaimReconciler)
        (req : NamespacedName) (w : W) (twoGi : Quantity) :
  ParseQuantity "2Gi" = inr twoGi ->
  exists (after : Z) (err : option apierror) (w' : W) (tr : list sent),
    run (RegisteredReconcile r req) w
    = (Returned ({| Requeue := false; RequeueAfter := after |}, err), w', tr)
    /\ (after = 0 \/ after = 5 * Second \/ after = 10 * Second)%Z
    /\ (is_Some err -> after = 0%Z)
    /\ length (creates tr) <= 1.
Proof.
  intros H2. unfold PersistentVolumeClaimReconciler_Reconcile, MustParse. pass.
  destruct (serve _ (GetPod req) w) as [[e|pod] w1]; pass.
  { destruct (IsNotFound e); eexists _, _, _, _; (split; [reflexivity|]);
      split_and!; auto; by intros [? [=]]. }
  destruct (String.eqb _ "").
  { eexists _, _, _, _; (split; [reflexivity|]); split_and!; auto. }
  pass. destruct (serve _ (GetPVC _) w1) as [[e|pvc] w2]; pass; cycle 1.
  { destruct (String.eqb (Phase pvc) ClaimBound);
      [|destruct (String.eqb (Phase pvc) ClaimPending)];
      eexists _, _, _, _; (split; [reflexivity|]); split_and!; auto;
      by intros [? [=]]. }
  destruct (IsNotFound e); pass; cycle 1.
  { eexists _, _, _, _; (split; [reflexivity|]); split_and!; auto. }
  destruct (ParseQuantity (storageSize pod)) as [perr|qty]; pass; rewrite ?H2; pass;
    (destruct (serve _ (Create _) w2) as [[cerr|] w3]; pass;
     [|destruct (Recorder r); pass]);
    eexists _, _, _, _; (split; [reflexivity|]); split_and!; auto;
    by intros [? [=]].
Qed.

(** The earlier reconciler reads the size only when it has to create the
    claim: with the claim in place a size that does not parse is harmless,
    with the claim missing it makes the pass panic before anything is
    created. *)
Theorem Backup_bad_size_panics_on_create (req : NamespacedName) (w w1 w2 : W) (pod : Pod)
        (claim : string) (perr : apierror)
        (res : apierror + PersistentVolumeClaim) :
  serve _ (GetPod req) w = (inr pod, w1) ->
  annotation pod "pvc-webhook/claim" = Some claim ->
  claim <> "" ->
  ParseQuantity (storageSize pod) = inl perr ->
  serve _ (GetPVC (Namespace pod, claim)) w1 = (res, w2) ->
  run (BackupReconcile req) w
  = match res with
    | inr _ =>
        (Returned (Result0, None), w2,
         [SentGetPod req; SentGetPVC (Namespace pod, claim);
          Logged "info" "PVC already exists"])
    | inl e =>
        if IsNotFound e
        then (Panicked "cannot parse quantity", w2,
              [SentGetPod req; SentGetPVC (Namespace pod, claim)])
        else (Returned (Result0, Some e), w2,
              [SentGetPod req; SentGetPVC (Namespace pod, claim)])
    end.
Proof.
  intros Hpod Hann Hne Hparse Hget.
  unfold Backup_Reconcile, MustParse. pass. rewrite Hpod. pass.
  rewrite (index_annotation _ _ _ Hann), (eqb_empty_false _ Hne).
  pass. rewrite Hget. destruct res as [e|pvc]; pass; [|reflexivity].
  destruct (IsNotFound e); pass; [|reflexivity]. rewrite Hparse. reflexivity.
Qed.

(** On a pod that is not being deleted, [PodReconciler] is [PVCReconciler]
    with the defaults [2Gi] and [robin-repl-3]: the two passes send the same
    requests, end in the same world and return the same result. *)
Theorem PodReconcile_is_PVCReconcile_with_defaults (req : NamespacedName) (w : W) :
  (forall pod w1, serve _ (GetPod req) w = (inr pod, w1) ->
                  IsZero (DeletionTimestamp pod) = true) ->
  let r := {| DefaultSize := "2Gi"; DefaultClass := "robin-repl-3" |} in
  (run (PodReconcile req) w).1 = (run (PVCReconcile r req) w).1
  /\ requests (run (PodReconcile req) w).2 = requests (run (PVCReconcile r req) w).2.
Proof.
  intros Hlive r. unfold PodReconciler_Reconcile, PVCReconciler_Reconcile. pass.
  destruct (serve _ (GetPod req) w) as [[e|pod] w1] eqn:Hpod; pass.
  { by destruct (IsNotFound e). }
  rewrite (Hlive pod w1 eq_refl). unfold index, PVCReconciler_sizeStr, index.
  destruct (index2 (Annotations pod) "pvc-webhook/claim") as [claim ok] eqn:Hclaim.
  assert (String.eqb claim "" = false -> ok = true) as Hok.
  { unfold index2 in Hclaim. destruct (Annotations pod ≫= _); simplify_eq; [done|].
    discriminate. }
  cbn [fst]. destruct (String.eqb claim "") eqn:Hc; pass.
  { rewrite orb_true_r. done. }
  rewrite (Hok eq_refl). pass. cbn [DefaultSize r].
  destruct (ParseQuantity _) as [perr|size]; pass; [done|].
  destruct (serve _ (GetPVC _) w1) as [[e|pvc] w2]; pass; [|done].
  destruct (IsNotFound e); pass; [|done].
  assert (PodReconciler_claim pod claim size
            (if String.eqb (index2 (Annotations pod) "pvc-webhook/storage-class").1 ""
             then "robin-repl-3"
             else (index2 (Annotations pod) "pvc-webhook/storage-class").1)
          = PVCReconciler_claim pod claim size (PVCReconciler_className r pod)) as ->.
  { unfold PodReconciler_claim, PVCReconciler_claim, PVCReconciler_className, index.
    cbn [DefaultClass r]. f_equal.
    destruct (String.eqb (index2 _ _).1 "") eqn:Hs; [reflexivity|]. by rewrite Hs. }
  destruct (serve _ (Create _) w2) as [[cerr|] w3]; done.
Qed.

End ReconcilerMore.

(** ** The reconcilers on a cluster store *)

Section ClusterFacts.

Import controllers.

Context {Quantity : Type}.
Variable ParseQuantity : string -> apierror + Quantity.

Local Abbreviation PVCReconcile := (PVCReconciler_Reconcile ParseQuantity).
Local Abbreviation RegisteredReconcile :=
  (PersistentVolumeClaimReconciler_Reconcile ParseQuantity).

Ltac pass := cbn [run bind call logInfo logError ret sent_of negb orb].
Ltac served :=
  change (@serve Quantity cluster _) with (@cluster_serve Quantity);
  cbn [cluster_serve]; unfold NamespacedName in *.

(** [PVCReconciler] converges on the store: for a pod that is not being
    deleted and whose size parses, a pass ends without error with the claim
    in the store (created by this pass when it was missing, and no other
    claim touched), and a second pass on the resulting store sends no write
    and leaves the store as it is. *)
Theorem PVCReconcile_converges (r : PVCReconciler) (req : NamespacedName)
        (w : cluster (Quantity := Quantity)) (pod : Pod) (claim : string)
        (size : Quantity) :
  pods w !! req = Some pod ->
  annotation pod "pvc-webhook/claim" = Some claim ->
  claim <> "" ->
  IsZero (DeletionTimestamp pod) = true ->
  ParseQuantity (PVCReconciler_sizeStr r pod) = inr size ->
  exists (w1 : cluster) (tr tr2 : list sent),
    run (PVCReconcile r req) w = (Returned (Result0, None), w1, tr)
    /\ pods w1 = pods w
    /\ pvcs w1 !! (Namespace pod, claim)
       = Some (default (PVCReconciler_claim pod claim size (PVCReconciler_className r pod))
                       (pvcs w !! (Namespace pod, claim)))
    /\ (forall key, key <> (Namespace pod, claim) -> pvcs w1 !! key = pvcs w !! key)
    /\ length (creates tr) = (if pvcs w !! (Namespace pod, claim) is Some _ then 0 else 1)
    /\ run (PVCReconcile r req) w1 = (Returned (Result0, None), w1, tr2)
    /\ creates tr2 = [] /\ deletes tr2 = [].
Proof.
  intros Hpod Hann Hne Hdel Hparse. unfold NamespacedName in *.
  assert (forall w' : cluster,
             pods w' = pods w -> is_Some (pvcs w' !! (Namespace pod, claim)) ->
             exists tr2, run (PVCReconcile r req) w' = (Returned (Result0, None), w', tr2)
                         /\ creates tr2 = [] /\ deletes tr2 = []) as Hsecond.
  { intros w' Hpods [pvc Hpvc]. unfold PVCReconciler_Reconcile. pass. served.
    rewrite Hpods, Hpod. pass.
    rewrite (index2_annotation _ _ _ Hann), (eqb_empty_false _ Hne), Hdel.
    pass. cbv zeta. rewrite Hparse. pass. served. rewrite Hpvc. pass.
    eexists. split; [reflexivity|]. by split. }
  destruct (pvcs w !! (Namespace pod, claim)) as [pvc|] eqn:Hpvc;
    unfold NamespacedName in *; rewrite ?Hpvc.
  - destruct (Hsecond w eq_refl) as (tr2 & Hrun & Hc & Hd); [by rewrite Hpvc|].
    exists w, tr2, tr2. rewrite Hrun, Hc. split_and!; auto.
  - set (new := PVCReconciler_claim pod claim size (PVCReconciler_className r pod)).
    set (w1 := {| pods := pods w; pvcs := <[(Namespace pod, claim) := new]> (pvcs w) |}).
    destruct (Hsecond w1 eq_refl) as (tr2 & Hrun & Hc & Hd).
    { simpl. rewrite lookup_insert_eq. eauto. }
    exists w1, [SentGetPod req; SentGetPVC (Namespace pod, claim); SentCreate new;
                Logged "info" "Created PVC for Pod"], tr2.
    split_and!; auto.
    + unfold PVCReconciler_Reconcile. pass. served. rewrite Hpod. pass.
      rewrite (index2_annotation _ _ _ Hann), (eqb_empty_false _ Hne), Hdel.
      pass. cbv zeta. rewrite Hparse. pass. served. rewrite Hpvc. pass.
      change (IsNotFound notFound) with true. pass. served.
      change (pvcKey (PVCReconciler_claim pod claim size (PVCReconciler_className r pod)))
        with (Namespace pod, claim).
      rewrite Hpvc. reflexivity.
    + simpl. by rewrite lookup_insert_eq.
    + intros key Hkey. simpl. by rewrite lookup_insert_ne.
Qed.

(** [PVCReconciler] on a pod that is being deleted, over a store whose
    claims sit under their own keys: the pass ends without error, the claim
    of the annotated name is gone from the store, and every other claim and
    every pod is as before. *)
Theorem PVCReconcile_deletion_clears_claim (r : PVCReconciler) (req : NamespacedName)
        (w : cluster (Quantity := Quantity)) (pod : Pod) (claim : string) :
  pods w !! req = Some pod ->
  annotation pod "pvc-webhook/claim" = Some claim ->
  claim <> "" ->
  IsZero (DeletionTimestamp pod) = false ->
  well_keyed w ->
  exists (w1 : cluster) (tr : list sent),
    run (PVCReconcile r req) w = (Returned (Result0, None), w1, tr)
    /\ pods w1 = pods w
    /\ pvcs w1 = delete (Namespace pod, claim) (pvcs w)
    /\ creates tr = []
    /\ length (deletes tr) = (if pvcs w !! (Namespace pod, claim) is Some _ then 1 else 0).
Proof.
  intros Hpod Hann Hne Hdel Hkeys. unfold NamespacedName in *.
  unfold PVCReconciler_Reconcile. pass. served. rewrite Hpod. pass.
  rewrite (index2_annotation _ _ _ Hann), (eqb_empty_false _ Hne), Hdel.
  pass. served.
  destruct (pvcs w !! (Namespace pod, claim)) as [pvc|] eqn:Hpvc;
    unfold NamespacedName in *; rewrite ?Hpvc; pass; served.
  - rewrite (Hkeys _ _ Hpvc), Hpvc. pass.
    eexists _, _. split; [reflexivity|]. by split_and!.
  - exists w, [SentGetPod req; SentGetPVC (Namespace pod, claim)].
    split_and!; auto. by rewrite delete_id.
Qed.

(** The registered reconciler creates the claim once: after a pass that
    found it missing the claim is in the store, under the size of the
    annotation or 2Gi, and the next pass sends no create. *)
Theorem RegisteredReconcile_creates_once (r : PersistentVolumeClaimReconciler)
        (req : NamespacedName) (w : cluster (Quantity := Quantity)) (pod : Pod)
        (claim : string) (twoGi : Quantity) :
  pods w !! req = Some pod ->
  annotation pod "pvc-webhook/claim" = Some claim ->
  claim <> "" ->
  pvcs w !! (Namespace pod, claim) = None ->
  ParseQuantity "2Gi" = inr twoGi ->
  exists (w1 : cluster) (tr tr2 : list sent) (res2 : Result),
    run (RegisteredReconcile r req) w
    = (Returned ({| Requeue := false; RequeueAfter := 5 * Second |}, None), w1, tr)
    /\ creates tr
       = [PersistentVolumeClaimReconciler_claim pod claim
            (match ParseQuantity (storageSize pod) with inr q => q | inl _ => twoGi end)
            (storageClass pod)]
    /\ pvcs w1 !! (Namespace pod, claim) = head (creates tr)
    /\ run (RegisteredReconcile r req) w1 = (Returned (res2, None), w1, tr2)
    /\ creates tr2 = [].
Proof.
  intros Hpod Hann Hne Hpvc H2. unfold NamespacedName in *.
  set (qty := match ParseQuantity (storageSize pod) with inr q => q | inl _ => twoGi end).
  set (new := PersistentVolumeClaimReconciler_claim pod claim qty (storageClass pod)).
  set (w1 := {| pods := pods w; pvcs := <[(Namespace pod, claim) := new]> (pvcs w) |}).
  assert (exists tr, run (RegisteredReconcile r req) w
                     = (Returned ({| Requeue := false; RequeueAfter := 5 * Second |}, None),
                        w1, tr)
                     /\ creates tr = [new]) as (tr & Hrun & Hcr).
  { unfold PersistentVolumeClaimReconciler_Reconcile, MustParse. pass. served.
    rewrite Hpod. pass.
    rewrite (index_annotation _ _ _ Hann), (eqb_empty_false _ Hne).
    pass. served. rewrite Hpvc. pass.
    change (IsNotFound notFound) with true. pass. cbv zeta.
    subst new qty. destruct (ParseQuantity (storageSize pod)) as [perr|q]; pass;
      rewrite ?H2; pass; served;
      change (pvcKey (PersistentVolumeClaimReconciler_claim pod claim ?q (storageClass pod)))
        with (Namespace pod, claim);
      rewrite Hpvc; pass; destruct (Recorder r); pass; eexists; by split. }
  assert (exists res2 tr2, run (RegisteredReconcile r req) w1 = (Returned (res2, None), w1, tr2)
                           /\ creates tr2 = []) as (res2 & tr2 & Hrun2 & Hcr2).
  { unfold PersistentVolumeClaimReconciler_Reconcile. pass. served.
    change (pods w1) with (pods w). rewrite Hpod. pass.
    rewrite (index_annotation _ _ _ Hann), (eqb_empty_false _ Hne).
    pass. served. change (pvcs w1) with (<[(Namespace pod, claim) := new]> (pvcs w)).
    rewrite lookup_insert_eq. pass.
    destruct (String.eqb (Phase new) ClaimBound);
      [|destruct (String.eqb (Phase new) ClaimPending)]; pass; eexists _, _; by split. }
  exists w1, tr, tr2, res2. rewrite Hcr. split_and!; auto.
  simpl. by rewrite lookup_insert_eq.
Qed.

End ClusterFacts.

(** *** The reconcilers on further example clusters *)

Section ReconcilerMoreExamples.

Import controllers cluster_fixtures more_cluster_fixtures.

Lemma unreadable_pod_ends_pass_witness :
  run (PVCReconciler_Reconcile demoParseQuantity reconciler web0Key) emptyCluster
  = (Returned (Result0, None), emptyCluster, [SentGetPod web0Key]).
Proof.
  destruct (unreadable_pod_ends_pass demoParseQuantity (W := cluster) reconciler
              registered web0Key emptyCluster emptyCluster notFound) as [H _];
    [reflexivity|]. exact H.
Defined.

Lemma unclaimed_pod_is_left_alone_witness :
  run (PersistentVolumeClaimReconciler_Reconcile demoParseQuantity registered web0Key)
      (clusterOf unclaimedPod [])
  = (Returned (Result0, None), clusterOf unclaimedPod [], [SentGetPod web0Key]).
Proof.
  destruct (unclaimed_pod_is_left_alone demoParseQuantity (W := cluster) reconciler
              registered web0Key (clusterOf unclaimedPod []) (clusterOf unclaimedPod [])
              unclaimedPod) as (_ & H & _); [reflexivity | by left |]. exact H.
Defined.

Lemma existing_claim_requeues_by_phase_witness :
  exists msg : string,
    run (PersistentVolumeClaimReconciler_Reconcile demoParseQuantity registered web0Key)
        (clusterOf (claimedPod "5Gi") [pvcxPending])
    = (Returned ({| Requeue := false; RequeueAfter := 5000000000 |}, None),
       clusterOf (claimedPod "5Gi") [pvcxPending],
       [SentGetPod web0Key; SentGetPVC ("ns1", "pvc-x"); Logged "info" msg]).
Proof.
  apply (existing_claim_requeues_by_phase demoParseQuantity (W := cluster) registered
           web0Key (clusterOf (claimedPod "5Gi") [pvcxPending])
           (clusterOf (claimedPod "5Gi") [pvcxPending])
           (clusterOf (claimedPod "5Gi") [pvcxPending])
           (claimedPod "5Gi") "pvc-x" pvcxPending);
    [reflexivity | reflexivity | discriminate | reflexivity].
Defined.

Lemma RegisteredReconcile_returns_witness :
  exists (after : Z) (err : option apierror),
    (run (PersistentVolumeClaimReconciler_Reconcile demoParseQuantity registered web0Key)
         (clusterOf (claimedPod "lots") [])).1.1
    = Returned ({| Requeue := false; RequeueAfter := after |}, err).
Proof.
  destruct (RegisteredReconcile_returns demoParseQuantity (W := cluster) registered
              web0Key (clusterOf (claimedPod "lots") []) (2 * 2 ^ 30)%N)
    as (after & err & w' & tr & Hrun & _); [reflexivity|].
  exists after, err. by rewrite Hrun.
Defined.

Lemma Backup_bad_size_panics_on_create_witness :
  run (Backup_Reconcile demoParseQuantity web0Key) (clusterOf (claimedPod "lots") [])
  = (Panicked "cannot parse quantity", clusterOf (claimedPod "lots") [],
     [SentGetPod web0Key; SentGetPVC ("ns1", "pvc-x")]).
Proof.
  apply (Backup_bad_size_panics_on_create demoParseQuantity (W := cluster) web0Key
           (clusterOf (claimedPod "lots") []) (clusterOf (claimedPod "lots") [])
           (clusterOf (claimedPod "lots") []) (claimedPod "lots") "pvc-x" badQuantity
           (inl notFound));
    [reflexivity | reflexivity | discriminate | reflexivity | reflexivity].
Defined.

Lemma PodReconcile_is_PVCReconcile_with_defaults_witness :
  requests (run (PodReconciler_Reconcile demoParseQuantity web0Key)
                (clusterOf (claimedPod "5Gi") [])).2
  = requests (run (PVCReconciler_Reconcile demoParseQuantity
                     {| DefaultSize := "2Gi"; DefaultClass := "robin-repl-3" |} web0Key)
                  (clusterOf (claimedPod "5Gi") [])).2.
Proof.
  apply (PodReconcile_is_PVCReconcile_with_defaults demoParseQuantity (W := cluster)
           web0Key (clusterOf (claimedPod "5Gi") [])).
  intros pod w1 [= <- _]. reflexivity.
Defined.

Lemma PVCReconcile_converges_witness :
  exists (w1 : cluster) (tr : list sent),
    run (PVCReconciler_Reconcile demoParseQuantity reconciler web0Key)
        (clusterOf (claimedPod "5Gi") [])
    = (Returned (Result0, None), w1, tr)
    /\ is_Some (pvcs w1 !! ("ns1", "pvc-x")).
Proof.
  destruct (PVCReconcile_converges demoParseQuantity reconciler web0Key
              (clusterOf (claimedPod "5Gi") []) (claimedPod "5Gi") "pvc-x"
              (5 * 2 ^ 30)%N)
    as (w1 & tr & tr2 & Hrun & _ & Hpvc & _);
    [reflexivity | reflexivity | discriminate | reflexivity | reflexivity |].
  exists w1, tr. split; [exact Hrun|]. eexists. exact Hpvc.
Defined.

Lemma PVCReconcile_deletion_clears_claim_witness :
  exists (w1 : cluster) (tr : list sent),
    run (PVCReconciler_Reconcile demoParseQuantity reconciler web0Key)
        (clusterOf deletingPod [pvcx])
    = (Returned (Result0, None), w1, tr)
    /\ pvcs w1 !! ("ns1", "pvc-x") = None.
Proof.
  destruct (PVCReconcile_deletion_clears_claim demoParseQuantity reconciler web0Key
              (clusterOf deletingPod [pvcx]) deletingPod "pvc-x")
    as (w1 & tr & Hrun & _ & Hpvcs & _);
    [reflexivity | reflexivity | discriminate | reflexivity | |].
  - intros key pvc Hin. unfold clusterOf in Hin. simpl in Hin.
    apply lookup_insert_Some in Hin as [[<- <-]|[_ Hin]]; [reflexivity|].
    by rewrite lookup_empty in Hin.
  - exists w1, tr. split; [exact Hrun|]. rewrite Hpvcs. apply lookup_delete_eq.
Defined.

Lemma RegisteredReconcile_creates_once_witness :
  exists (w1 : cluster) (tr : list sent),
    run (PersistentVolumeClaimReconciler_Reconcile demoParseQuantity registered web0Key)
        (clusterOf (claimedPod "lots") [])
    = (Returned ({| Requeue := false; RequeueAfter := 5 * Second |}, None), w1, tr)
    /\ creates tr
       = [PersistentVolumeClaimReconciler_claim (claimedPod "lots") "pvc-x"
            (2 * 2 ^ 30)%N ""].
Proof.
  destruct (RegisteredReconcile_creates_once demoParseQuantity registered web0Key
              (clusterOf (claimedPod "lots") []) (claimedPod "lots") "pvc-x"
              (2 * 2 ^ 30)%N)
    as (w1 & tr & tr2 & res2 & Hrun & Hcr & _);
    [reflexivity | reflexivity | discriminate | reflexivity | reflexivity |].
  exists w1, tr. split; [exact Hrun | exact Hcr].
Defined.

Lemma claimName_valid_when_short_witness :
  webhook.claimName fixtures.unicode_lower "ns1" "web-0" "data" = "pvc-ns1-web-0-data".
Proof.
  destruct (claimName_valid_when_short fixtures.unicode_lower "ns1" "web-0" "data")
    as [H _]; [vm_compute; lia|]. rewrite H. by vm_compute.
Defined.

End ReconcilerMoreExamples.

(** ** The older handler *)

Section LegacyFacts.

Import legacy.

Variable deserializer_Decode : string -> AdmissionReview * option error.
Variable json_Unmarshal : string -> Pod * option error.
Variable json_Marshal : list patch -> option string.

Local Abbreviation mutatePods :=
  (legacy.mutatePods deserializer_Decode json_Unmarshal json_Marshal).

(** The two patches of the volume [v] found at index [i]: the whole
    annotation map when the pod came without annotations, the one key
    otherwise. *)
Local Abbreviation patches_of pod :=
  (fun iv : nat * Volume =>
     let pvcName := "pvc-" +:+ Name pod +:+ "-" +:+ vName iv.2 in
     [ {| op := "replace"; path := "/spec/volumes/" +:+ pretty iv.1;
          value := ClaimVolume (vName iv.2) pvcName |};
       if noAnnotations (Annotations pod)
       then {| op := "add"; path := "/metadata/annotations";
               value := AnnotationMap {[ "pvc-webhook/" +:+ vName iv.2 := pvcName ]} |}
       else {| op := "add";
               path := "/metadata/annotations/pvc-webhook~1"
                       +:+ escapeJSONPointer (vName iv.2);
               value := Text pvcName |} ]).

Lemma legacy_key_path (name : string) :
  annPath +:+ "/" +:+ escapeJSONPointer ("pvc-webhook/" +:+ name)
  = "/metadata/annotations/pvc-webhook~1" +:+ escapeJSONPointer name.
Proof.
  unfold escapeJSONPointer.
  rewrite (ReplaceAll_byte_app "~" "~0"), (ReplaceAll_byte_app "/" "~1").
  reflexivity.
Qed.

Lemma legacy_loop (pod : Pod) (i : nat) (vs : list Volume) (ps : list patch)
      (a : option (gmap string string)) :
  noAnnotations a = noAnnotations (Annotations pod) ->
  (volumes_loop (Name pod) i vs (ps, a)).1
  = ps ++ concat (map (patches_of pod) (convertible i vs)).
Proof.
  revert i ps a. induction vs as [|v vs IH]; intros i ps a Ha; simpl.
  { by rewrite app_nil_r. }
  unfold volume_step. destruct (EmptyDir v); [|by apply IH]. simpl.
  rewrite Ha. destruct (noAnnotations (Annotations pod)) eqn:Hno.
  - rewrite IH by reflexivity. by rewrite <- !List.app_assoc.
  - rewrite IH by exact Ha. rewrite legacy_key_path.
    by rewrite <- !List.app_assoc.
Qed.

(** The older handler emits two patches per [emptyDir] volume, in the order
    of the volumes: the replace of the volume by a claim named
    [pvc-<pod>-<volume>] (unsanitized), then an add.  For a pod that came
    without annotations every volume adds the whole annotation map at
    [/metadata/annotations] again, with its one key; otherwise the add goes
    to the key's own path, whose prefix is left unescaped. *)
Theorem legacy_patches_per_volume (pod : Pod) :
  patches pod = concat (map (patches_of pod) (convertible 0 (Volumes pod))).
Proof. unfold patches. by rewrite (legacy_loop pod). Qed.

(** The older handler panics exactly on a body that decodes into a review
    without a request; a body that cannot be read or decoded is answered
    with an HTTP error instead. *)
Theorem mutatePods_panics_iff_nil_request (body : error + string) :
  (exists msg, mutatePods body = Panicked msg)
  <-> exists b review, body = inr b /\ deserializer_Decode b = (review, None)
                       /\ Request review = None.
Proof.
  unfold legacy.mutatePods, writeResponse. destruct body as [e|b].
  { split; [by intros [? ?] | by intros (? & ? & ? & _)]. }
  destruct (deserializer_Decode b) as [review [err|]] eqn:Hdec.
  { split; [by intros [? ?] | intros (? & ? & [= <-] & ? & _); congruence]. }
  destruct (Request review) as [req|] eqn:Hreq.
  - split; [|intros (? & ? & [= <-] & ? & ?); congruence].
    intros [msg Hp]. exfalso.
    destruct (negb _); [done|].
    destruct (json_Unmarshal _) as [pod [e|]]; [done|]. by destruct (json_Marshal _).
  - split; eauto 10.
Qed.

(** Whatever the older handler answers with a review allows the request,
    echoes the UID and the type of the review it was sent, and carries a
    patch type exactly when it carries a patch. *)
Theorem mutatePods_always_allows (body : error + string) (ar : AdmissionReview) :
  mutatePods body = Responded ar ->
  exists b review req resp,
    body = inr b /\ deserializer_Decode b = (review, None)
    /\ Request review = Some req
    /\ TypeMeta ar = TypeMeta review
    /\ Response ar = Some resp
    /\ Allowed resp = true
    /\ respUID resp = webhook.rUID req
    /\ (is_Some (Patch resp) <-> PatchType resp = Some webhook.PatchTypeJSONPatch)
    /\ (webhook.Kind req <> "Pod" -> Patch resp = None).
Proof.
  unfold legacy.mutatePods, writeResponse. destruct body as [e|b]; [done|].
  destruct (deserializer_Decode b) as [review [err|]] eqn:Hdec; [done|].
  destruct (Request review) as [req|] eqn:Hreq; [|done].
  destruct (String.eqb_spec (webhook.Kind req) "Pod") as [Hk|Hk]; simpl.
  - destruct (json_Unmarshal _) as [pod [e|]]; [done|]. rewrite ?Hreq.
    intros [= <-]. exists b, review, req. eexists. split_and!; try done.
    + by destruct (json_Marshal _).
    + by destruct (json_Marshal _).
    + destruct (json_Marshal _); simpl; split; try done; by intros [? [=]].
  - rewrite ?Hreq. intros [= <-]. exists b, review, req. eexists.
    split_and!; try done. simpl. split; [by intros [? [=]] | done].
Qed.

End LegacyFacts.

Lemma mutatePods_always_allows_witness :
  exists resp : legacy.AdmissionResponse,
    legacy.Response legacy_fixtures.web0_responded = Some resp
    /\ legacy.Allowed resp = true.
Proof.
  destruct (mutatePods_always_allows legacy_fixtures.deserializer_Decode
              legacy_fixtures.json_Unmarshal legacy_fixtures.json_Marshal
              (inr "review of web-0") legacy_fixtures.web0_responded)
    as (b & review & req & resp & _ & _ & _ & _ & Hresp & Hallowed & _);
    [by vm_compute|].
  exists resp. by split.
Defined.
